(** * Sentinel: the contact-detection model scripts

    A shallow embedding of [create_model.py], [create_small_model.py] and
    [create_tiny_model.py]: the character encoder ([preprocess_text] and
    its siblings), the example generators, the dataset builder
    ([create_training_data]) and the output stage of the network. *)

From Stdlib Require Import String Ascii.
From Stdlib Require Import ZArith NArith List Lia Bool.
From Stdlib Require Import DecimalString.
From Stdlib Require Import Reals Lra.
From Equations Require Import Equations.
Import ListNotations.

Open Scope Z_scope.

(* ===================================================================== *)
(** * Python values used by the scripts *)
(* ===================================================================== *)

(** A Python [str] is a sequence of Unicode code points; [ord] returns the
    code point of a one-character string as an [int]. *)
Definition codepoint := N.
Definition pystr := list codepoint.

Definition ord (c : codepoint) : Z := Z.of_N c.

(** [len(x)] as a Python [int]. *)
Definition len {A} (l : list A) : Z := Z.of_nat (length l).

(** A string literal of the source.  The only escape sequence the three
    scripts use is backslash-n, which the Python lexer turns into code
    point 10. *)
Fixpoint py (s : string) : pystr :=
  match s with
  | EmptyString => []
  | String "\" (String "n" rest) => 10%N :: py rest
  | String a rest => N_of_ascii a :: py rest
  end.

(** [l[:stop]] for an [int] bound: a negative [stop] counts from the end,
    and bounds outside the sequence are clipped. *)
Definition slice_to {A} (l : list A) (stop : Z) : list A :=
  if stop <? 0
  then firstn (Z.to_nat (len l + stop)) l
  else firstn (Z.to_nat stop) l.

(** [for x in xs: acc = body(acc, x)]: a Python [for] loop over a sequence,
    threading the variables the body assigns. *)
Definition for_each {A S} (xs : list A) (body : S -> A -> S) (init : S) : S :=
  fold_left body xs init.

(** [xs.append(x)]. *)
Definition append {A} (xs : list A) (x : A) : list A := xs ++ [x].

(* ===================================================================== *)
(** * The text encoder *)
(* ===================================================================== *)

(** The six encoders of the three scripts have one body and differ in the
    constant that caps a character code.  [encode max_code] is that body;
    the named functions below instantiate it. *)
Section Encoder.

Variable max_code : Z.

(** [for char in text[:max_length]:
       char_code = min(ord(char), max_code)
       char_indices.append(char_code)] *)
Definition encode_chars (chars : pystr) (char_indices : list Z) : list Z :=
  for_each chars
    (fun char_indices char =>
       let char_code := Z.min (ord char) max_code in
       append char_indices char_code)
    char_indices.

(** [while len(char_indices) < max_length: char_indices.append(0)] *)
Equations? pad_while (max_length : Z) (char_indices : list Z) : list Z
  by wf (Z.to_nat (max_length - len char_indices)) lt :=
  pad_while max_length char_indices with Z_lt_dec (len char_indices) max_length := {
    | left _ => pad_while max_length (append char_indices 0)
    | right _ => char_indices }.
Proof.
  unfold len, append in *. rewrite length_app. simpl. lia.
Qed.

Definition encode (text : pystr) (max_length : Z) : list Z :=
  let char_indices := encode_chars (slice_to text max_length) [] in
  pad_while max_length char_indices.

End Encoder.

(* ===================================================================== *)
(** * The random source *)
(* ===================================================================== *)

(** The scripts draw from numpy's global generator.  Its state is modelled
    as an arbitrary infinite sequence of raw draws and a cursor into it;
    every outcome the generator can produce is the image of some
    sequence. *)
Record random_state : Type := mk_random_state {
  draws : nat -> nat;
  cursor : nat
}.

Definition Rand (A : Type) : Type := random_state -> A * random_state.

Definition ret {A} (a : A) : Rand A := fun st => (a, st).

Definition bind {A B} (m : Rand A) (k : A -> Rand B) : Rand B :=
  fun st => let (a, st') := m st in k a st'.

Notation "x <- m ;; k" := (bind m (fun x => k))
  (at level 61, m at next level, right associativity).

Definition next_raw : Rand nat :=
  fun st => (draws st (cursor st), mk_random_state (draws st) (S (cursor st))).

(** [np.random.choice(xs)] on a non-empty list of strings: one element of
    [xs]. *)
Definition choice (xs : list pystr) : Rand pystr :=
  raw <- next_raw ;;
  ret (nth (raw mod length xs)%nat xs []).

(** [np.random.randint(low, high)]: an integer of [[low, high)]. *)
Definition randint (low high : Z) : Rand Z :=
  raw <- next_raw ;;
  ret (low + Z.of_nat raw mod (high - low)).

(** [range(n)]. *)
Definition range (n : nat) : list nat := seq 0 n.

(** A [for] loop whose body draws from the random source. *)
Fixpoint for_each_M {A S} (xs : list A) (body : S -> A -> Rand S) (acc : S)
  : Rand S :=
  match xs with
  | [] => ret acc
  | x :: xs' => acc' <- body acc x ;; for_each_M xs' body acc'
  end.

(** Formatting of an [int] inside an f-string: [{n}] and [{n:02d}]. *)
Definition of_ascii (s : string) : pystr :=
  map N_of_ascii (list_ascii_of_string s).

Definition str_int (n : Z) : pystr :=
  of_ascii (NilZero.string_of_int (Z.to_int n)).

Definition format_02d (n : Z) : pystr :=
  let sign := if n <? 0 then py "-" else [] in
  let digits := str_int (Z.abs n) in
  sign ++ repeat 48%N (2 - length sign - length digits) ++ digits.

Definition example : Type := pystr * pystr.

(* ===================================================================== *)
(** * numpy arrays *)
(* ===================================================================== *)

(** [np.array(rows, dtype=np.float32)] for a list of lists of integers.
    The result carries its shape; rows of unequal length are refused
    (numpy raises ValueError).  The entries the scripts store are integers
    of [[0, 29999]], which float32 represents exactly, so they are kept as
    integers. *)
Record ndarray : Type := mk_ndarray {
  shape : list nat;
  data : list (list Z)
}.

Definition same_length (n : nat) (row : list Z) : bool :=
  Nat.eqb (length row) n.

Definition np_array (rows : list (list Z)) : option ndarray :=
  match rows with
  | [] => Some (mk_ndarray [0%nat] [])
  | row :: _ =>
      if forallb (same_length (length row)) rows
      then Some (mk_ndarray [length rows; length row] rows)
      else None
  end.

(* ===================================================================== *)
(** * Network layers *)
(* ===================================================================== *)

(** The layers are the framework's; what the scripts fix is which layers
    are composed and in which order.  Tensors are lists of reals (one
    sample of the batch), weights are arbitrary: they belong to the
    trainer. *)
Record layer_weights : Type := mk_layer_weights {
  kernel : list (list R);
  bias : list R
}.

Definition Rsum (v : list R) : R := fold_right Rplus 0%R v.

Definition relu (v : list R) : list R := map (Rmax 0) v.

(** [activation='softmax']: normalised exponentials over the last axis of
    the layer's output, which for a [Dense] layer is the axis of its
    units. *)
Definition softmax (v : list R) : list R :=
  let total := Rsum (map exp v) in
  map (fun x => (exp x / total)%R) v.

Definition dot (x w : list R) : R :=
  Rsum (map (fun p => (fst p * snd p)%R) (combine x w)).

Definition column (j : nat) (k : list (list R)) : list R :=
  map (fun row => nth j row 0%R) k.

(** [Dense(units, activation)(x)]: [activation(x . kernel + bias)], with a
    kernel of shape (inputs, units). *)
Definition Dense (units : nat) (activation : list R -> list R)
    (w : layer_weights) (x : list R) : list R :=
  activation
    (map (fun j => (dot x (column j (kernel w)) + nth j (bias w) 0)%R)
         (seq 0 units)).

(** [Dropout(rate)] when the model is evaluated: the identity. *)
Definition Dropout (rate : R) (x : list R) : list R := x.

(** [Reshape((rows, cols))]: the flat vector cut into consecutive rows. *)
Fixpoint Reshape (rows cols : nat) (v : list R) : list (list R) :=
  match rows with
  | O => []
  | S rows' => firstn cols v :: Reshape rows' cols (skipn cols v)
  end.

(* ===================================================================== *)
(** * create_model.py *)
(* ===================================================================== *)

Module Full.

Definition MAX_INPUT_LENGTH : Z := 200.
Definition MAX_OUTPUT_LENGTH : Z := 50.
Definition VOCAB_SIZE : Z := 30000.

Definition create_contact_detection_model
    (w1 w2 w3 w_out : layer_weights) (input_text : list R)
  : list (list R) :=
  let dense1 := Dense 256 relu w1 input_text in
  let dropout1 := Dropout 0.2 dense1 in
  let dense2 := Dense 128 relu w2 dropout1 in
  let dropout2 := Dropout 0.2 dense2 in
  let dense3 := Dense 64 relu w3 dropout2 in
  let dropout3 := Dropout 0.1 dense3 in
  let output :=
    Dense (Z.to_nat (MAX_OUTPUT_LENGTH * VOCAB_SIZE)) softmax w_out dropout3 in
  Reshape (Z.to_nat MAX_OUTPUT_LENGTH) (Z.to_nat VOCAB_SIZE) output.

Definition hand_written : list example :=
  [ (py "John Smith\nOnline\nLast seen today at 2:30 PM", py "John Smith");
    (py "Maria Garcia\nTyping...\nLast seen yesterday", py "Maria Garcia");
    (py "Dr. Johnson\nOnline\nLast seen 5 minutes ago", py "Dr. Johnson");
    (py "Sarah Wilson\nLast seen today at 10:15 AM", py "Sarah Wilson");
    (py "Mike Chen\nOnline\nLast seen 1 hour ago", py "Mike Chen");
    (py "Anna Rodriguez\nLast seen yesterday at 8:45 PM", py "Anna Rodriguez");
    (py "Prof. Brown\nOnline\nLast seen 30 minutes ago", py "Prof. Brown");
    (py "Lisa Johnson\nTyping...\nLast seen today", py "Lisa Johnson");
    (py "David Kim\nLast seen 2 hours ago", py "David Kim");
    (py "Emma Davis\nOnline\nLast seen 15 minutes ago", py "Emma Davis") ].

Definition names : list pystr :=
  [ py "Alex"; py "Chris"; py "Taylor"; py "Jordan"; py "Casey";
    py "Morgan"; py "Riley"; py "Avery"; py "Quinn"; py "Blake" ].

Definition surnames : list pystr :=
  [ py "Anderson"; py "Taylor"; py "Thomas"; py "Jackson"; py "White";
    py "Harris"; py "Martin"; py "Thompson"; py "Garcia"; py "Martinez" ].

Definition status_options : list pystr :=
  [ py "Online"; py "Last seen today"; py "Last seen yesterday";
    py "Typing..." ].

(** The body of [for i in range(50)]. *)
Definition synthesize (training_examples : list example) (i : nat)
  : Rand (list example) :=
  first_name <- choice names ;;
  last_name <- choice surnames ;;
  let full_name := first_name ++ py " " ++ last_name in
  status <- choice status_options ;;
  hour <- randint 1 12 ;;
  minute <- randint 10 60 ;;
  let text :=
    full_name ++ py "\n" ++ status ++ py "\nLast seen today at "
      ++ str_int hour ++ py ":" ++ format_02d minute ++ py " PM" in
  ret (append training_examples (text, full_name)).

Definition generate_training_data : Rand (list example) :=
  let training_examples := hand_written in
  for_each_M (range 50) synthesize training_examples.

Definition preprocess_text (text : pystr) (max_length : Z) : list Z :=
  encode 29999 text max_length.

Definition preprocess_contact_name (name : pystr) (max_length : Z) : list Z :=
  encode 29999 name max_length.

(** Both encoders are called with their default [max_length], 200 and
    50. *)
Definition create_training_data : Rand (option (ndarray * ndarray)) :=
  training_examples <- generate_training_data ;;
  let Xy :=
    for_each training_examples
      (fun (Xy : list (list Z) * list (list Z)) (ex : example) =>
         let (X, y) := Xy in
         let (text, contact_name) := ex in
         let text_indices := preprocess_text text 200 in
         let X := append X text_indices in
         let name_indices := preprocess_contact_name contact_name 50 in
         let y := append y name_indices in
         (X, y))
      ([], []) in
  ret (match np_array (fst Xy), np_array (snd Xy) with
       | Some X, Some y => Some (X, y)
       | _, _ => None
       end).

End Full.

(* ===================================================================== *)
(** * create_small_model.py *)
(* ===================================================================== *)

Module Small.

Definition MAX_INPUT_LENGTH : Z := 200.
Definition MAX_OUTPUT_LENGTH : Z := 50.
Definition VOCAB_SIZE : Z := 256.

Definition create_small_contact_detection_model
    (w1 w2 w_out : layer_weights) (input_text : list R)
  : list (list R) :=
  let dense1 := Dense 64 relu w1 input_text in
  let dropout1 := Dropout 0.1 dense1 in
  let dense2 := Dense 32 relu w2 dropout1 in
  let dropout2 := Dropout 0.1 dense2 in
  let output :=
    Dense (Z.to_nat (MAX_OUTPUT_LENGTH * VOCAB_SIZE)) softmax w_out dropout2 in
  Reshape (Z.to_nat MAX_OUTPUT_LENGTH) (Z.to_nat VOCAB_SIZE) output.

Definition hand_written : list example :=
  [ (py "John Smith\nOnline\nLast seen today", py "John Smith");
    (py "Maria Garcia\nTyping...\nLast seen yesterday", py "Maria Garcia");
    (py "Dr. Johnson\nOnline\nLast seen 5 minutes ago", py "Dr. Johnson");
    (py "Sarah Wilson\nLast seen today", py "Sarah Wilson");
    (py "Mike Chen\nOnline\nLast seen 1 hour ago", py "Mike Chen");
    (py "Anna Rodriguez\nLast seen yesterday", py "Anna Rodriguez");
    (py "Prof. Brown\nOnline\nLast seen 30 minutes ago", py "Prof. Brown");
    (py "Lisa Johnson\nTyping...\nLast seen today", py "Lisa Johnson");
    (py "David Kim\nLast seen 2 hours ago", py "David Kim");
    (py "Emma Davis\nOnline\nLast seen 15 minutes ago", py "Emma Davis") ].

Definition names : list pystr :=
  [ py "Alex"; py "Chris"; py "Taylor"; py "Jordan"; py "Casey";
    py "Morgan"; py "Riley"; py "Avery"; py "Quinn"; py "Blake" ].

Definition surnames : list pystr :=
  [ py "Anderson"; py "Taylor"; py "Thomas"; py "Jackson"; py "White";
    py "Harris"; py "Martin"; py "Thompson"; py "Garcia"; py "Martinez" ].

Definition status_options : list pystr :=
  [ py "Online"; py "Last seen today"; py "Last seen yesterday";
    py "Typing..." ].

(** The body of [for i in range(20)]. *)
Definition synthesize (training_examples : list example) (i : nat)
  : Rand (list example) :=
  first_name <- choice names ;;
  last_name <- choice surnames ;;
  let full_name := first_name ++ py " " ++ last_name in
  status <- choice status_options ;;
  let text := full_name ++ py "\n" ++ status ++ py "\nLast seen today" in
  ret (append training_examples (text, full_name)).

Definition generate_simple_training_data : Rand (list example) :=
  let training_examples := hand_written in
  for_each_M (range 20) synthesize training_examples.

Definition preprocess_text_simple (text : pystr) (max_length : Z) : list Z :=
  encode 255 text max_length.

Definition preprocess_contact_name_simple (name : pystr) (max_length : Z)
  : list Z :=
  encode 255 name max_length.

Definition create_training_data : Rand (option (ndarray * ndarray)) :=
  training_examples <- generate_simple_training_data ;;
  let Xy :=
    for_each training_examples
      (fun (Xy : list (list Z) * list (list Z)) (ex : example) =>
         let (X, y) := Xy in
         let (text, contact_name) := ex in
         let text_indices := preprocess_text_simple text 200 in
         let X := append X text_indices in
         let name_indices := preprocess_contact_name_simple contact_name 50 in
         let y := append y name_indices in
         (X, y))
      ([], []) in
  ret (match np_array (fst Xy), np_array (snd Xy) with
       | Some X, Some y => Some (X, y)
       | _, _ => None
       end).

End Small.

(* ===================================================================== *)
(** * create_tiny_model.py *)
(* ===================================================================== *)

Module Tiny.

Definition MAX_INPUT_LENGTH : Z := 200.
Definition MAX_OUTPUT_LENGTH : Z := 50.
Definition VOCAB_SIZE : Z := 128.

Definition create_tiny_contact_detection_model
    (w1 w2 w_out : layer_weights) (input_text : list R)
  : list (list R) :=
  let dense1 := Dense 32 relu w1 input_text in
  let dense2 := Dense 16 relu w2 dense1 in
  let output :=
    Dense (Z.to_nat (MAX_OUTPUT_LENGTH * VOCAB_SIZE)) softmax w_out dense2 in
  Reshape (Z.to_nat MAX_OUTPUT_LENGTH) (Z.to_nat VOCAB_SIZE) output.

Definition hand_written : list example :=
  [ (py "John Smith\nOnline", py "John Smith");
    (py "Maria Garcia\nTyping", py "Maria Garcia");
    (py "Dr. Johnson\nOnline", py "Dr. Johnson");
    (py "Sarah Wilson\nLast seen", py "Sarah Wilson");
    (py "Mike Chen\nOnline", py "Mike Chen") ].

Definition names : list pystr :=
  [ py "Alex"; py "Chris"; py "Taylor"; py "Jordan"; py "Casey" ].

Definition surnames : list pystr :=
  [ py "Anderson"; py "Taylor"; py "Thomas"; py "Jackson"; py "White" ].

(** The body of [for i in range(10)]. *)
Definition synthesize (training_examples : list example) (i : nat)
  : Rand (list example) :=
  first_name <- choice names ;;
  last_name <- choice surnames ;;
  let full_name := first_name ++ py " " ++ last_name in
  let text := full_name ++ py "\nOnline" in
  ret (append training_examples (text, full_name)).

Definition generate_tiny_training_data : Rand (list example) :=
  let training_examples := hand_written in
  for_each_M (range 10) synthesize training_examples.

Definition preprocess_text_tiny (text : pystr) (max_length : Z) : list Z :=
  encode 127 text max_length.

Definition preprocess_contact_name_tiny (name : pystr) (max_length : Z)
  : list Z :=
  encode 127 name max_length.

Definition create_training_data : Rand (option (ndarray * ndarray)) :=
  training_examples <- generate_tiny_training_data ;;
  let Xy :=
    for_each training_examples
      (fun (Xy : list (list Z) * list (list Z)) (ex : example) =>
         let (X, y) := Xy in
         let (text, contact_name) := ex in
         let text_indices := preprocess_text_tiny text 200 in
         let X := append X text_indices in
         let name_indices := preprocess_contact_name_tiny contact_name 50 in
         let y := append y name_indices in
         (X, y))
      ([], []) in
  ret (match np_array (fst Xy), np_array (snd Xy) with
       | Some X, Some y => Some (X, y)
       | _, _ => None
       end).

End Tiny.

(* ===================================================================== *)
(** * The encoder with its failure modes spelled out *)
(* ===================================================================== *)

(** The same body, with the two ways a Python run of it could fail to
    return made explicit: [ord] raises TypeError on anything but a string
    of length one, and the padding loop might not stop.  Iterating over a
    [str] yields its characters as strings of length one. *)
Inductive exception : Type := TypeError.

Inductive outcome (A : Type) : Type :=
| Returned (a : A)
| Raised (e : exception)
| OutOfFuel.
Arguments Returned {A} a.
Arguments Raised {A} e.
Arguments OutOfFuel {A}.

Definition iter_str (text : pystr) : list pystr := map (fun c => [c]) text.

Definition ord_checked (char : pystr) : outcome Z :=
  match char with
  | [c] => Returned (Z.of_N c)
  | _ => Raised TypeError
  end.

Section EncoderRun.

Variable max_code : Z.

Fixpoint encode_chars_run (chars : list pystr) (char_indices : list Z)
  : outcome (list Z) :=
  match chars with
  | [] => Returned char_indices
  | char :: chars' =>
      match ord_checked char with
      | Returned code =>
          let char_code := Z.min code max_code in
          encode_chars_run chars' (append char_indices char_code)
      | Raised e => Raised e
      | OutOfFuel => OutOfFuel
      end
  end.

Fixpoint pad_while_run (fuel : nat) (max_length : Z) (char_indices : list Z)
  : outcome (list Z) :=
  match fuel with
  | O => OutOfFuel
  | S fuel' =>
      if len char_indices <? max_length
      then pad_while_run fuel' max_length (append char_indices 0)
      else Returned char_indices
  end.

Definition encode_run (fuel : nat) (text : pystr) (max_length : Z)
  : outcome (list Z) :=
  match encode_chars_run (iter_str (slice_to text max_length)) [] with
  | Returned char_indices => pad_while_run fuel max_length char_indices
  | Raised e => Raised e
  | OutOfFuel => OutOfFuel
  end.

End EncoderRun.

(** The code a character is stored as. *)
Definition clamp (max_code : Z) (c : codepoint) : Z := Z.min (ord c) max_code.

(** An encoded sequence of the right shape: [max_length] entries, each a
    code of [[0, max_code]]. *)
Definition well_formed (max_code max_length : Z) (out : list Z) : Prop :=
  len out = max_length /\ Forall (fun v => 0 <= v <= max_code) out.

(** Position [i] of [encode text max_length] holds the code of character
    [c], capped at [max_code]. *)
Definition encodes_char_at (encode : pystr -> Z -> list Z) (max_code : Z)
    (text : pystr) (max_length : Z) (i : nat) (c : codepoint) : Prop :=
  exists v,
    nth_error (encode text max_length) i = Some v /\
    0 <= v <= max_code /\
    v = Z.min (ord c) max_code /\
    (max_code < ord c -> v = max_code).

(** Every position from the end of the text up to [max_length] holds the
    padding token. *)
Definition zero_padded (encode : pystr -> Z -> list Z)
    (text : pystr) (max_length : Z) : Prop :=
  forall i : nat,
    len text <= Z.of_nat i < max_length ->
    nth_error (encode text max_length) i = Some 0.

(** The output is a function of the first [max_length] characters. *)
Definition prefix_determined (encode : pystr -> Z -> list Z)
    (text : pystr) (max_length : Z) : Prop :=
  encode text max_length =
    encode (firstn (Z.to_nat max_length) text) max_length /\
  forall text' : pystr,
    firstn (Z.to_nat max_length) text' = firstn (Z.to_nat max_length) text ->
    encode text' max_length = encode text max_length.

(** A run of the encoder with explicit failure returns, and returns what
    the encoder computes. *)
Definition returns_as (run : nat -> pystr -> Z -> outcome (list Z))
    (encode : pystr -> Z -> list Z) (max_code : Z)
    (fuel : nat) (text : pystr) (max_length : Z) : Prop :=
  run fuel text max_length = Returned (encode text max_length) /\
  (0 <= max_length -> well_formed max_code max_length (encode text max_length)).

(** [s.count(c)] for a one-character [c]. *)
Definition count (c : codepoint) (s : pystr) : nat :=
  length (filter (N.eqb c) s).

Definition space : codepoint := 32%N.
Definition newline : codepoint := 10%N.

(** The label is a first name of the pool, one space and a surname of the
    pool. *)
Definition drawn_from (names surnames : list pystr) (ex : example) : Prop :=
  exists first_name last_name,
    In first_name names /\ In last_name surnames /\
    snd ex = first_name ++ [space] ++ last_name.

(** A non-empty label made of two tokens with exactly one space between
    them. *)
Definition two_token_label (label : pystr) : Prop :=
  label <> [] /\ count space label = 1%nat /\
  exists first last,
    first <> [] /\ last <> [] /\ label = first ++ [space] ++ last.

(** The input text starts with the label and a newline, and the label has
    no newline of its own: it is the first line of the text. *)
Definition label_is_first_line (ex : example) : Prop :=
  (exists rest, fst ex = snd ex ++ [newline] ++ rest) /\
  count newline (snd ex) = 0%nat.

(** What a generator returns: the hand-written examples, then [n] examples
    made by the loop. *)
Definition fixed_then_synthetic (result fixed : list example)
    (n_fixed n : nat) : Prop :=
  length fixed = n_fixed /\
  exists synthetic,
    result = fixed ++ synthetic /\ length synthetic = n.

(** What the loop bodies append. *)
Definition synthetic (names surnames : list pystr) (ex : example) : Prop :=
  drawn_from names surnames ex /\
  exists rest, fst ex = snd ex ++ [newline] ++ rest.

(** The labels of the examples the loop made come from the two pools. *)
Definition synthetic_labels (result fixed : list example)
    (names surnames : list pystr) : Prop :=
  exists synthetic_examples,
    result = fixed ++ synthetic_examples /\
    Forall (drawn_from names surnames) synthetic_examples.

(** A pool entry is a single token on a single line. *)
Definition token (name : pystr) : Prop :=
  name <> [] /\ count space name = 0%nat /\ count newline name = 0%nat.

(** What [create_training_data] returns for the examples its generator
    hands it: two arrays of shapes (count, 200) and (count, 50) whose rows
    are, index by index, the encoded texts and the encoded labels. *)
Definition builds_dataset (builder : Rand (option (ndarray * ndarray)))
    (generator : Rand (list example))
    (encode_text encode_label : pystr -> Z -> list Z)
    (st : random_state) : Prop :=
  let examples := fst (generator st) in
  exists X y,
    fst (builder st) = Some (X, y) /\
    shape X = [length examples; 200%nat] /\
    shape y = [length examples; 50%nat] /\
    length (data X) = length examples /\
    length (data y) = length examples /\
    Forall (fun row => length row = 200%nat) (data X) /\
    Forall (fun row => length row = 50%nat) (data y) /\
    forall i ex,
      nth_error examples i = Some ex ->
      nth_error (data X) i = Some (encode_text (fst ex) 200) /\
      nth_error (data y) i = Some (encode_label (snd ex) 50).

(** The body of the builder's loop, with the cap of the script's encoders
    as a parameter. *)
Definition builder_step (max_code : Z)
    (Xy : list (list Z) * list (list Z)) (ex : example)
  : list (list Z) * list (list Z) :=
  let (X, y) := Xy in
  let (text, contact_name) := ex in
  let text_indices := encode max_code text 200 in
  let X := append X text_indices in
  let name_indices := encode max_code contact_name 50 in
  let y := append y name_indices in
  (X, y).

(** A row that is a probability distribution. *)
Definition distribution (row : list R) : Prop :=
  Forall (fun p => (0 <= p)%R) row /\ Rsum row = 1%R.

(** What the output stage computes: a grid of [rows] rows of [cols]
    positive entries that add up to 1 over the whole grid, so that every
    row adds up to less than 1. *)
Definition joint_distribution (rows cols : nat) (grid : list (list R))
  : Prop :=
  length grid = rows /\
  Forall (fun row => length row = cols) grid /\
  Forall (Forall (fun p => (0 < p)%R)) grid /\
  Rsum (map Rsum grid) = 1%R /\
  Forall (fun row => (0 < Rsum row < 1)%R) grid /\
  Forall (fun row => ~ distribution row) grid.

(** A statement about the six encoders of the three scripts, each taken
    with the cap it hard-codes. *)
Definition every_encoder (P : Z -> (pystr -> Z -> list Z) -> Prop) : Prop :=
  P 29999 Full.preprocess_text /\
  P 29999 Full.preprocess_contact_name /\
  P 255 Small.preprocess_text_simple /\
  P 255 Small.preprocess_contact_name_simple /\
  P 127 Tiny.preprocess_text_tiny /\
  P 127 Tiny.preprocess_contact_name_tiny.

(** Every character of the text has a code of [[1, max_code]]: none is
    capped, none is the NUL character. *)
Definition representable (max_code : Z) (text : pystr) : Prop :=
  Forall (fun c => 0 < ord c <= max_code) text.

(** The examples a generator's loop made all satisfy [P]. *)
Definition synthetic_examples (result fixed : list example)
    (P : example -> Prop) : Prop :=
  exists made, result = fixed ++ made /\ Forall P made.

(** The texts the three loops build around a label. *)
Definition full_template (ex : example) : Prop :=
  exists first_name last_name status hour minute,
    In first_name Full.names /\ In last_name Full.surnames /\
    In status Full.status_options /\
    1 <= hour <= 11 /\ 10 <= minute <= 59 /\
    snd ex = first_name ++ py " " ++ last_name /\
    fst ex = snd ex ++ py "\n" ++ status ++ py "\nLast seen today at "
               ++ str_int hour ++ py ":" ++ str_int minute ++ py " PM".

Definition small_template (ex : example) : Prop :=
  exists first_name last_name status,
    In first_name Small.names /\ In last_name Small.surnames /\
    In status Small.status_options /\
    snd ex = first_name ++ py " " ++ last_name /\
    fst ex = snd ex ++ py "\n" ++ status ++ py "\nLast seen today".

Definition tiny_template (ex : example) : Prop :=
  exists first_name last_name,
    In first_name Tiny.names /\ In last_name Tiny.surnames /\
    snd ex = first_name ++ py " " ++ last_name /\
    fst ex = snd ex ++ py "\nOnline".

(** The random state after [n] more draws. *)
Definition advance (n : nat) (st : random_state) : random_state :=
  mk_random_state (draws st) (n + cursor st).

(** Two random states that stand at the same place and hold the same next
    [n] draws. *)
Definition same_draws (n : nat) (st st' : random_state) : Prop :=
  cursor st = cursor st' /\
  forall k, (k < n)%nat ->
    draws st (k + cursor st) = draws st' (k + cursor st').

(** A computation that looks at the next [k] draws only. *)
Definition reads {A} (k : nat) (m : Rand A) : Prop :=
  forall n st st',
    same_draws (k + n) st st' ->
    fst (m st) = fst (m st') /\ same_draws n (snd (m st)) (snd (m st')).

(** A string of at most [n] characters, all of [[1, 127]]. *)
Definition plain_within (n : nat) (s : pystr) : Prop :=
  representable 127 s /\ (length s <= n)%nat.

Definition plain_within_b (n : nat) (s : pystr) : bool :=
  forallb (fun c => (0 <? ord c) && (ord c <=? 127)) s
  && Nat.leb (length s) n.

(** Texts of at most [n_text] and labels of at most [n_label] plain
    characters. *)
Definition example_within (n_text n_label : nat) (ex : example) : Prop :=
  plain_within n_text (fst ex) /\ plain_within n_label (snd ex).

(** [create_training_data] returns arrays of [count] rows. *)
Definition dataset_shape (builder : Rand (option (ndarray * ndarray)))
    (count : nat) (st : random_state) : Prop :=
  exists X y,
    fst (builder st) = Some (X, y) /\
    shape X = [count; 200%nat] /\ shape y = [count; 50%nat].

(** Each row of the arrays is the code points of the whole text (of the
    whole label), as they are, followed by zeros. *)
Definition rows_are_raw_codes (builder : Rand (option (ndarray * ndarray)))
    (generator : Rand (list example)) (st : random_state) : Prop :=
  exists X y,
    fst (builder st) = Some (X, y) /\
    forall i ex,
      nth_error (fst (generator st)) i = Some ex ->
      nth_error (data X) i =
        Some (map ord (fst ex) ++ repeat 0 (200 - length (fst ex))) /\
      nth_error (data y) i =
        Some (map ord (snd ex) ++ repeat 0 (50 - length (snd ex))).

(** Row [i] of [X] and row [i] of [y] start with the same codes, those of
    the label; right after them the row of [X] holds the code of the
    newline and the row of [y] the first padding zero. *)
Definition label_opens_row (builder : Rand (option (ndarray * ndarray)))
    (generator : Rand (list example)) (st : random_state) : Prop :=
  exists X y,
    fst (builder st) = Some (X, y) /\
    forall i ex,
      nth_error (fst (generator st)) i = Some ex ->
      exists text_row label_row,
        nth_error (data X) i = Some text_row /\
        nth_error (data y) i = Some label_row /\
        firstn (length (snd ex)) text_row = map ord (snd ex) /\
        firstn (length (snd ex)) label_row = map ord (snd ex) /\
        nth_error text_row (length (snd ex)) = Some 10 /\
        nth_error label_row (length (snd ex)) = Some 0.


(* ===================================================================== *)
(** * Properties of the encoder *)
(* ===================================================================== *)

Example encode_AB : encode 127 (py "AB") 5 = [65; 66; 0; 0; 0].
Proof. reflexivity. Qed.

Example encode_euro : encode 127 [8364%N] 1 = [127].
Proof. reflexivity. Qed.

Example encode_negative_bound : encode 127 (py "abc") (-1) = [97; 98].
Proof. reflexivity. Qed.

Example py_newline : py "A\nB" = [65%N; 10%N; 66%N].
Proof. reflexivity. Qed.

Section EncoderFacts.

Variable max_code : Z.

Lemma encode_chars_map chars acc :
  encode_chars max_code chars acc = acc ++ map (clamp max_code) chars.
Proof.
  unfold encode_chars, for_each.
  revert acc. induction chars as [|c chars IH]; intros acc; simpl.
  - now rewrite app_nil_r.
  - rewrite IH. unfold append. now rewrite <- app_assoc.
Qed.

Lemma pad_while_repeat max_length char_indices :
  pad_while max_length char_indices =
  char_indices ++ repeat 0 (Z.to_nat (max_length - len char_indices)).
Proof.
  funelim (pad_while max_length char_indices).
  - rewrite H. unfold append, len in *. rewrite length_app. simpl.
    rewrite <- app_assoc. f_equal.
    replace (Z.to_nat (max_length - Z.of_nat (length char_indices)))
      with (S (Z.to_nat (max_length - Z.of_nat (length char_indices + 1))))
      by lia.
    reflexivity.
  - replace (Z.to_nat (max_length - len char_indices)) with O by lia.
    now rewrite app_nil_r.
Qed.

Lemma encode_closed_form text max_length :
  encode max_code text max_length =
  map (clamp max_code) (slice_to text max_length)
    ++ repeat 0 (Z.to_nat (max_length - len (slice_to text max_length))).
Proof.
  unfold encode. rewrite encode_chars_map, pad_while_repeat. simpl.
  unfold len. now rewrite length_map.
Qed.

Lemma slice_to_nonneg {A} (l : list A) stop :
  0 <= stop -> slice_to l stop = firstn (Z.to_nat stop) l.
Proof.
  intros H. unfold slice_to.
  destruct (Z.ltb_spec stop 0); [lia | reflexivity].
Qed.

Lemma len_slice_to_le {A} (l : list A) stop :
  0 <= stop -> len (slice_to l stop) <= stop.
Proof.
  intros H. rewrite slice_to_nonneg by assumption.
  unfold len. rewrite length_firstn. lia.
Qed.

Lemma encode_length text max_length :
  0 <= max_length -> len (encode max_code text max_length) = max_length.
Proof.
  intros H. rewrite encode_closed_form.
  pose proof (len_slice_to_le text max_length H) as Hle.
  unfold len in *. rewrite length_app, length_map, repeat_length. lia.
Qed.

Lemma encode_nth_char text max_length i c :
  (Z.of_nat i < max_length) -> nth_error text i = Some c ->
  nth_error (encode max_code text max_length) i = Some (clamp max_code c).
Proof.
  intros Hi Hc. rewrite encode_closed_form.
  rewrite slice_to_nonneg by lia.
  assert (Hlt : (i < length text)%nat)
    by (apply nth_error_Some; congruence).
  rewrite nth_error_app1
    by (rewrite length_map, length_firstn; lia).
  rewrite nth_error_map, nth_error_firstn.
  destruct (Nat.ltb_spec i (Z.to_nat max_length)); [|lia].
  now rewrite Hc.
Qed.

Lemma encode_nth_pad text max_length i :
  len text <= Z.of_nat i < max_length ->
  nth_error (encode max_code text max_length) i = Some 0.
Proof.
  intros [Hlo Hhi]. rewrite encode_closed_form.
  rewrite slice_to_nonneg by lia. unfold len in *.
  assert (Hfull : firstn (Z.to_nat max_length) text = text)
    by (apply firstn_all2; lia).
  rewrite Hfull.
  rewrite nth_error_app2 by (rewrite length_map; lia).
  rewrite length_map. apply nth_error_repeat. lia.
Qed.

Lemma clamp_range c : 0 <= max_code -> 0 <= clamp max_code c <= max_code.
Proof. unfold clamp, ord. lia. Qed.

Lemma clamp_saturates c : max_code < ord c -> clamp max_code c = max_code.
Proof. unfold clamp. lia. Qed.

Lemma encode_range text max_length :
  0 <= max_code ->
  Forall (fun v => 0 <= v <= max_code) (encode max_code text max_length).
Proof.
  intros H. rewrite encode_closed_form. apply Forall_app. split.
  - apply Forall_forall. intros v Hv. apply in_map_iff in Hv.
    destruct Hv as [c [<- _]]. now apply clamp_range.
  - apply Forall_forall. intros v Hv. apply repeat_spec in Hv. lia.
Qed.

Lemma encode_prefix text max_length :
  0 <= max_length ->
  encode max_code (firstn (Z.to_nat max_length) text) max_length =
  encode max_code text max_length.
Proof.
  intros H. rewrite !encode_closed_form, !slice_to_nonneg by assumption.
  now rewrite firstn_firstn, Nat.min_id.
Qed.

Lemma encode_chars_run_returns chars acc :
  encode_chars_run max_code (iter_str chars) acc =
  Returned (encode_chars max_code chars acc).
Proof.
  unfold encode_chars, for_each.
  revert acc. induction chars as [|c chars IH]; intros acc; simpl.
  - reflexivity.
  - apply IH.
Qed.

Lemma pad_while_run_returns fuel max_length char_indices :
  (Z.to_nat (max_length - len char_indices) < fuel)%nat ->
  pad_while_run fuel max_length char_indices =
  Returned (pad_while max_length char_indices).
Proof.
  revert char_indices.
  induction fuel as [|fuel IH]; intros char_indices Hfuel; [lia|].
  simpl. rewrite pad_while_repeat.
  destruct (Z.ltb_spec (len char_indices) max_length) as [Hlt|Hge].
  - rewrite IH, pad_while_repeat.
    + unfold append, len in *. rewrite length_app. simpl.
      rewrite <- app_assoc. do 2 f_equal.
      replace (Z.to_nat (max_length - Z.of_nat (length char_indices)))
        with (S (Z.to_nat (max_length - Z.of_nat (length char_indices + 1))))
        by lia.
      reflexivity.
    + unfold append, len in *. rewrite length_app. simpl. lia.
  - replace (Z.to_nat (max_length - len char_indices)) with O by lia.
    now rewrite app_nil_r.
Qed.

Lemma encode_run_returns fuel text max_length :
  (Z.to_nat max_length < fuel)%nat ->
  encode_run max_code fuel text max_length =
  Returned (encode max_code text max_length).
Proof.
  intros Hfuel. unfold encode_run, encode.
  rewrite encode_chars_run_returns. apply pad_while_run_returns.
  unfold len. lia.
Qed.

End EncoderFacts.

Ltac each_encoder :=
  repeat split;
  unfold Full.preprocess_text, Full.preprocess_contact_name,
    Small.preprocess_text_simple, Small.preprocess_contact_name_simple,
    Tiny.preprocess_text_tiny, Tiny.preprocess_contact_name_tiny.

(** C1: whatever the text and the cap, the encoder returns exactly
    [max_length] codes (for a length [max_length], that is a non-negative
    one), be the text empty, shorter or longer than that; so do the six
    encoders of the three scripts. *)
Theorem encoder_length_exact (text : pystr) (max_length max_code : Z) :
  0 <= max_length ->
  len (encode max_code text max_length) = max_length /\
  len (Full.preprocess_text text max_length) = max_length /\
  len (Full.preprocess_contact_name text max_length) = max_length /\
  len (Small.preprocess_text_simple text max_length) = max_length /\
  len (Small.preprocess_contact_name_simple text max_length) = max_length /\
  len (Tiny.preprocess_text_tiny text max_length) = max_length /\
  len (Tiny.preprocess_contact_name_tiny text max_length) = max_length.
Proof.
  intros H. each_encoder; now apply encode_length.
Qed.

Lemma encoder_length_exact_witness :
  0 <= 5 /\
  len (Tiny.preprocess_text_tiny (py "Alex White\nOnline") 5) = 5.
Proof.
  split; [lia|].
  apply (encoder_length_exact (py "Alex White\nOnline") 5 127). lia.
Defined.

Lemma encodes_char_at_encode max_code text max_length i c :
  0 <= max_code ->
  Z.of_nat i < max_length -> nth_error text i = Some c ->
  encodes_char_at (encode max_code) max_code text max_length i c.
Proof.
  intros Hcap Hi Hc. exists (clamp max_code c). repeat split.
  - now apply encode_nth_char.
  - now apply clamp_range.
  - now apply clamp_range.
  - intros Hbig. now apply clamp_saturates.
Qed.

(** C2: each of the first [max_length] characters of the text is encoded,
    at its own position, as a code of [[0, max_code]], which is [max_code]
    itself when the character's code point exceeds it; [max_code] is 29999,
    255 and 127, the vocabulary size less one. *)
Theorem encoder_clamps (text : pystr) (max_length : Z) (i : nat) (c : codepoint) :
  Z.of_nat i < max_length ->
  nth_error text i = Some c ->
  (encodes_char_at Full.preprocess_text 29999 text max_length i c /\
   encodes_char_at Full.preprocess_contact_name 29999 text max_length i c /\
   29999 = Full.VOCAB_SIZE - 1) /\
  (encodes_char_at Small.preprocess_text_simple 255 text max_length i c /\
   encodes_char_at Small.preprocess_contact_name_simple 255 text max_length i c /\
   255 = Small.VOCAB_SIZE - 1) /\
  (encodes_char_at Tiny.preprocess_text_tiny 127 text max_length i c /\
   encodes_char_at Tiny.preprocess_contact_name_tiny 127 text max_length i c /\
   127 = Tiny.VOCAB_SIZE - 1).
Proof.
  intros Hi Hc.
  repeat match goal with
         | |- _ /\ _ => split
         | |- encodes_char_at _ _ _ _ _ _ =>
             apply encodes_char_at_encode; [lia | assumption | assumption]
         | |- _ = _ => reflexivity
         end.
Qed.

Lemma encoder_clamps_witness :
  Z.of_nat 0 < 1 /\
  nth_error [8364%N] 0 = Some 8364%N /\
  encodes_char_at Tiny.preprocess_text_tiny 127 [8364%N] 1 0 8364%N.
Proof.
  split; [lia|]. split; [reflexivity|].
  apply (encoder_clamps [8364%N] 1 0 8364%N); [lia | reflexivity].
Defined.

Lemma zero_padded_encode max_code text max_length :
  zero_padded (encode max_code) text max_length.
Proof. intros i Hi. now apply encode_nth_pad. Qed.

Lemma encode_empty max_code max_length :
  encode max_code [] max_length = repeat 0 (Z.to_nat max_length).
Proof.
  rewrite encode_closed_form. unfold slice_to. rewrite !firstn_nil.
  destruct (max_length <? 0); simpl; unfold len; simpl;
    now rewrite Z.sub_0_r.
Qed.

(** C3: a text shorter than [max_length] is followed by zeros up to
    position [max_length]; the empty text encodes to [max_length] zeros. *)
Theorem encoder_pads_with_zeros (text : pystr) (max_length : Z) :
  len text < max_length ->
  (zero_padded Full.preprocess_text text max_length /\
   zero_padded Full.preprocess_contact_name text max_length /\
   zero_padded Small.preprocess_text_simple text max_length /\
   zero_padded Small.preprocess_contact_name_simple text max_length /\
   zero_padded Tiny.preprocess_text_tiny text max_length /\
   zero_padded Tiny.preprocess_contact_name_tiny text max_length) /\
  (Full.preprocess_text [] max_length = repeat 0 (Z.to_nat max_length) /\
   Full.preprocess_contact_name [] max_length = repeat 0 (Z.to_nat max_length) /\
   Small.preprocess_text_simple [] max_length = repeat 0 (Z.to_nat max_length) /\
   Small.preprocess_contact_name_simple [] max_length
     = repeat 0 (Z.to_nat max_length) /\
   Tiny.preprocess_text_tiny [] max_length = repeat 0 (Z.to_nat max_length) /\
   Tiny.preprocess_contact_name_tiny [] max_length
     = repeat 0 (Z.to_nat max_length)).
Proof.
  intros _.
  repeat match goal with
         | |- _ /\ _ => split
         | |- zero_padded _ _ _ => apply zero_padded_encode
         | |- _ = _ => apply encode_empty
         end.
Qed.

Lemma encoder_pads_with_zeros_witness :
  len (py "Mike Chen") < 50 /\
  nth_error (Full.preprocess_contact_name (py "Mike Chen") 50) 9 = Some 0 /\
  nth_error (Full.preprocess_contact_name (py "Mike Chen") 50) 49 = Some 0.
Proof.
  assert (Hshort : len (py "Mike Chen") < 50) by (vm_compute; reflexivity).
  split; [exact Hshort|].
  pose proof (encoder_pads_with_zeros (py "Mike Chen") 50 Hshort)
    as [[_ [Hpad _]] _].
  split; apply Hpad; vm_compute; split; congruence.
Defined.

Lemma prefix_determined_encode max_code text max_length :
  0 <= max_length -> prefix_determined (encode max_code) text max_length.
Proof.
  intros H. split.
  - symmetry. now apply encode_prefix.
  - intros text' Hsame.
    rewrite <- (encode_prefix max_code text'), <- (encode_prefix max_code text)
      by assumption.
    now rewrite Hsame.
Qed.

(** C4: on a text of [max_length] characters or more the encoders read the
    first [max_length] characters only: the text and its prefix of that
    length encode alike, and so does any text with the same prefix. *)
Theorem encoder_reads_prefix_only (text : pystr) (max_length : Z) :
  0 <= max_length ->
  max_length <= len text ->
  prefix_determined Full.preprocess_text text max_length /\
  prefix_determined Full.preprocess_contact_name text max_length /\
  prefix_determined Small.preprocess_text_simple text max_length /\
  prefix_determined Small.preprocess_contact_name_simple text max_length /\
  prefix_determined Tiny.preprocess_text_tiny text max_length /\
  prefix_determined Tiny.preprocess_contact_name_tiny text max_length.
Proof.
  intros H _.
  repeat match goal with
         | |- _ /\ _ => split
         | |- prefix_determined _ _ _ => now apply prefix_determined_encode
         end.
Qed.

Lemma encoder_reads_prefix_only_witness :
  0 <= 4 /\
  4 <= len (py "Emma Davis\nOnline") /\
  Small.preprocess_text_simple (py "Emma Davis\nOnline") 4 =
  Small.preprocess_text_simple (py "Emma") 4.
Proof.
  assert (H0 : 0 <= 4) by lia.
  assert (Hlen : 4 <= len (py "Emma Davis\nOnline"))
    by (vm_compute; congruence).
  split; [exact H0|]. split; [exact Hlen|].
  pose proof (encoder_reads_prefix_only (py "Emma Davis\nOnline") 4 H0 Hlen)
    as [_ [_ [[Hpre _] _]]].
  exact Hpre.
Defined.

Lemma returns_as_encode max_code fuel text max_length :
  0 <= max_code ->
  (Z.to_nat max_length < fuel)%nat ->
  returns_as (encode_run max_code) (encode max_code) max_code
    fuel text max_length.
Proof.
  intros Hcap Hfuel. split.
  - now apply encode_run_returns.
  - intros H. split; [now apply encode_length | now apply encode_range].
Qed.

(** C5: on every text, the empty and the over-long ones included, a run of
    the encoder raises nothing and stops (any fuel above [max_length]
    suffices), and what it returns has exactly [max_length] entries, all of
    [[0, max_code]]. *)
Theorem encoder_total (fuel : nat) (text : pystr) (max_length : Z) :
  (Z.to_nat max_length < fuel)%nat ->
  returns_as (encode_run 29999) Full.preprocess_text 29999
    fuel text max_length /\
  returns_as (encode_run 29999) Full.preprocess_contact_name 29999
    fuel text max_length /\
  returns_as (encode_run 255) Small.preprocess_text_simple 255
    fuel text max_length /\
  returns_as (encode_run 255) Small.preprocess_contact_name_simple 255
    fuel text max_length /\
  returns_as (encode_run 127) Tiny.preprocess_text_tiny 127
    fuel text max_length /\
  returns_as (encode_run 127) Tiny.preprocess_contact_name_tiny 127
    fuel text max_length.
Proof.
  intros Hfuel.
  repeat match goal with
         | |- _ /\ _ => split
         | |- returns_as _ _ _ _ _ _ =>
             apply returns_as_encode; [lia | assumption]
         end.
Qed.

Lemma encoder_total_witness :
  (Z.to_nat 50 < 51)%nat /\
  encode_run 255 51 [] 50 = Returned (repeat 0 50%nat) /\
  well_formed 255 50 (Small.preprocess_contact_name_simple [] 50).
Proof.
  assert (Hfuel : (Z.to_nat 50 < 51)%nat) by (vm_compute; lia).
  split; [exact Hfuel|].
  pose proof (encoder_total 51 [] 50 Hfuel) as [_ [_ [_ [[Hrun Hshape] _]]]].
  split; [exact Hrun | apply Hshape; lia].
Defined.

(* ===================================================================== *)
(** * Properties of the example generators *)
(* ===================================================================== *)

Lemma choice_In xs st : xs <> [] -> In (fst (choice xs st)) xs.
Proof.
  intros Hne. unfold choice, bind, next_raw, ret. simpl.
  apply nth_In. apply Nat.mod_upper_bound.
  destruct xs; [congruence | discriminate].
Qed.

Section Loop.

Variable P : example -> Prop.
Variable body : list example -> nat -> Rand (list example).

Hypothesis body_appends :
  forall acc i st, exists ex, fst (body acc i st) = acc ++ [ex] /\ P ex.

Lemma for_each_M_appends (xs : list nat) :
  forall acc st, exists synthetic,
    fst (for_each_M xs body acc st) = acc ++ synthetic /\
    length synthetic = length xs /\
    Forall P synthetic.
Proof.
  induction xs as [|x xs IH]; intros acc st.
  - exists []. simpl. rewrite app_nil_r. auto.
  - simpl. unfold bind.
    destruct (body_appends acc x st) as [ex [Hex HP]].
    destruct (body acc x st) as [acc' st'] eqn:Hbody. simpl in Hex.
    destruct (IH acc' st') as [synthetic [Hrun [Hlen Hall]]].
    exists (ex :: synthetic). subst acc'.
    rewrite Hrun, <- app_assoc. simpl. auto.
Qed.

End Loop.

Ltac run_body :=
  intros acc i st;
  cbv beta zeta delta [Full.synthesize Small.synthesize Tiny.synthesize bind ret];
  repeat (match goal with
          | |- context [choice ?xs ?s] =>
              let H := fresh "Hin" in
              assert (H : In (fst (choice xs s)) xs)
                by (apply choice_In; discriminate);
              destruct (choice xs s)
          | |- context [randint ?a ?b ?s] => destruct (randint a b s)
          end; cbv beta zeta);
  cbn [fst snd] in *.

Lemma full_synthesize_appends acc i st :
  exists ex, fst (Full.synthesize acc i st) = acc ++ [ex] /\
             synthetic Full.names Full.surnames ex.
Proof.
  revert acc i st. run_body.
  eexists. split; [reflexivity|]. split.
  - eexists. eexists. repeat split; eassumption.
  - cbn [fst snd]. eexists. reflexivity.
Qed.

Lemma small_synthesize_appends acc i st :
  exists ex, fst (Small.synthesize acc i st) = acc ++ [ex] /\
             synthetic Small.names Small.surnames ex.
Proof.
  revert acc i st. run_body.
  eexists. split; [reflexivity|]. split.
  - eexists. eexists. repeat split; eassumption.
  - cbn [fst snd]. eexists. reflexivity.
Qed.

Lemma tiny_synthesize_appends acc i st :
  exists ex, fst (Tiny.synthesize acc i st) = acc ++ [ex] /\
             synthetic Tiny.names Tiny.surnames ex.
Proof.
  revert acc i st. run_body.
  eexists. split; [reflexivity|]. split.
  - eexists. eexists. repeat split; eassumption.
  - cbn [fst snd]. eexists. reflexivity.
Qed.

Lemma full_generate st :
  exists synth,
    fst (Full.generate_training_data st) = Full.hand_written ++ synth /\
    length synth = 50%nat /\
    Forall (synthetic Full.names Full.surnames) synth.
Proof.
  unfold Full.generate_training_data.
  destruct (for_each_M_appends _ _ full_synthesize_appends (range 50)
              Full.hand_written st) as [synth [H1 [H2 H3]]].
  exists synth. unfold range in H2. rewrite length_seq in H2. auto.
Qed.

Lemma small_generate st :
  exists synth,
    fst (Small.generate_simple_training_data st) = Small.hand_written ++ synth /\
    length synth = 20%nat /\
    Forall (synthetic Small.names Small.surnames) synth.
Proof.
  unfold Small.generate_simple_training_data.
  destruct (for_each_M_appends _ _ small_synthesize_appends (range 20)
              Small.hand_written st) as [synth [H1 [H2 H3]]].
  exists synth. unfold range in H2. rewrite length_seq in H2. auto.
Qed.

Lemma tiny_generate st :
  exists synth,
    fst (Tiny.generate_tiny_training_data st) = Tiny.hand_written ++ synth /\
    length synth = 10%nat /\
    Forall (synthetic Tiny.names Tiny.surnames) synth.
Proof.
  unfold Tiny.generate_tiny_training_data.
  destruct (for_each_M_appends _ _ tiny_synthesize_appends (range 10)
              Tiny.hand_written st) as [synth [H1 [H2 H3]]].
  exists synth. unfold range in H2. rewrite length_seq in H2. auto.
Qed.

Lemma count_app c a b : count c (a ++ b) = (count c a + count c b)%nat.
Proof. unfold count. now rewrite filter_app, length_app. Qed.

Ltac pool_of_tokens :=
  repeat constructor; (discriminate || reflexivity).

Lemma full_names_tokens : Forall token Full.names.
Proof. pool_of_tokens. Qed.

Lemma full_surnames_tokens : Forall token Full.surnames.
Proof. pool_of_tokens. Qed.

Lemma small_names_tokens : Forall token Small.names.
Proof. pool_of_tokens. Qed.

Lemma small_surnames_tokens : Forall token Small.surnames.
Proof. pool_of_tokens. Qed.

Lemma tiny_names_tokens : Forall token Tiny.names.
Proof. pool_of_tokens. Qed.

Lemma tiny_surnames_tokens : Forall token Tiny.surnames.
Proof. pool_of_tokens. Qed.

Section Pools.

Variables names surnames : list pystr.
Hypothesis names_tokens : Forall token names.
Hypothesis surnames_tokens : Forall token surnames.

Lemma drawn_label_two_tokens ex :
  drawn_from names surnames ex -> two_token_label (snd ex).
Proof.
  intros [first_name [last_name [Hf [Hl Hlabel]]]].
  rewrite Forall_forall in names_tokens, surnames_tokens.
  destruct (names_tokens _ Hf) as [Hf1 [Hf2 _]].
  destruct (surnames_tokens _ Hl) as [Hl1 [Hl2 _]].
  rewrite Hlabel. repeat split.
  - destruct first_name; [congruence | discriminate].
  - rewrite !count_app, Hf2, Hl2. reflexivity.
  - exists first_name, last_name. auto.
Qed.

Lemma drawn_label_one_line ex :
  drawn_from names surnames ex -> count newline (snd ex) = 0%nat.
Proof.
  intros [first_name [last_name [Hf [Hl Hlabel]]]].
  rewrite Forall_forall in names_tokens, surnames_tokens.
  destruct (names_tokens _ Hf) as [_ [_ Hf3]].
  destruct (surnames_tokens _ Hl) as [_ [_ Hl3]].
  rewrite Hlabel, !count_app, Hf3, Hl3. reflexivity.
Qed.

Lemma synthetic_first_line ex :
  synthetic names surnames ex -> label_is_first_line ex.
Proof.
  intros [Hdrawn Hrest]. split; [assumption|].
  now apply drawn_label_one_line.
Qed.

End Pools.

Lemma synthetic_drawn names surnames l :
  Forall (synthetic names surnames) l -> Forall (drawn_from names surnames) l.
Proof. apply Forall_impl. now intros ex [H _]. Qed.

(** C7: whatever the random source, a generator returns its hand-written
    examples (10, 10 and 5 of them) followed by the examples its loop made,
    exactly 50, 20 and 10; the tiny generator returns 15 examples at
    least. *)
Theorem generators_fixed_then_synthetic (st : random_state) :
  fixed_then_synthetic (fst (Full.generate_training_data st))
    Full.hand_written 10 50 /\
  fixed_then_synthetic (fst (Small.generate_simple_training_data st))
    Small.hand_written 10 20 /\
  fixed_then_synthetic (fst (Tiny.generate_tiny_training_data st))
    Tiny.hand_written 5 10 /\
  (15 <= length (fst (Tiny.generate_tiny_training_data st)))%nat.
Proof.
  destruct (full_generate st) as [sf [Hf [Lf _]]].
  destruct (small_generate st) as [ss [Hs [Ls _]]].
  destruct (tiny_generate st) as [sx [Hx [Lx _]]].
  unfold fixed_then_synthetic.
  repeat match goal with |- _ /\ _ => split end.
  - reflexivity.
  - exists sf. split; assumption.
  - reflexivity.
  - exists ss. split; assumption.
  - reflexivity.
  - exists sx. split; assumption.
  - rewrite Hx, length_app, Lx.
    change (length Tiny.hand_written) with 5%nat. lia.
Qed.

(** C8: whatever the random source, the label of every example a loop made
    is a first name of the script's pool, one space and a surname of its
    pool (pools of 10 and 10, and of 5 and 5 in the tiny script); every
    example of the tiny generator, hand-written or not, has a non-empty
    label of two tokens with exactly one space. *)
Theorem synthetic_labels_from_pools (st : random_state) :
  (synthetic_labels (fst (Full.generate_training_data st))
     Full.hand_written Full.names Full.surnames /\
   length Full.names = 10%nat /\ length Full.surnames = 10%nat) /\
  (synthetic_labels (fst (Small.generate_simple_training_data st))
     Small.hand_written Small.names Small.surnames /\
   length Small.names = 10%nat /\ length Small.surnames = 10%nat) /\
  (synthetic_labels (fst (Tiny.generate_tiny_training_data st))
     Tiny.hand_written Tiny.names Tiny.surnames /\
   length Tiny.names = 5%nat /\ length Tiny.surnames = 5%nat) /\
  Forall (fun ex => two_token_label (snd ex))
    (fst (Tiny.generate_tiny_training_data st)).
Proof.
  destruct (full_generate st) as [sf [Hf [_ Af]]].
  destruct (small_generate st) as [ss [Hs [_ As]]].
  destruct (tiny_generate st) as [sx [Hx [_ Ax]]].
  apply synthetic_drawn in Af, As, Ax.
  repeat match goal with |- _ /\ _ => split end;
    try (match goal with |- length _ = _ => reflexivity end).
  - exists sf. split; assumption.
  - exists ss. split; assumption.
  - exists sx. split; assumption.
  - rewrite Hx. clear Hf Hs Hx. apply Forall_app. split.
    + unfold Tiny.hand_written.
      repeat constructor; try discriminate; cbn [snd].
      * exists (py "John"), (py "Smith"). repeat split; discriminate.
      * exists (py "Maria"), (py "Garcia"). repeat split; discriminate.
      * exists (py "Dr."), (py "Johnson"). repeat split; discriminate.
      * exists (py "Sarah"), (py "Wilson"). repeat split; discriminate.
      * exists (py "Mike"), (py "Chen"). repeat split; discriminate.
    + revert Ax. apply Forall_impl. intros ex.
      apply drawn_label_two_tokens;
        [apply tiny_names_tokens | apply tiny_surnames_tokens].
Qed.

Ltac first_lines :=
  repeat constructor; cbn [fst snd]; eexists; reflexivity.

Lemma full_hand_written_first_line :
  Forall label_is_first_line Full.hand_written.
Proof. first_lines. Qed.

Lemma small_hand_written_first_line :
  Forall label_is_first_line Small.hand_written.
Proof. first_lines. Qed.

Lemma tiny_hand_written_first_line :
  Forall label_is_first_line Tiny.hand_written.
Proof. first_lines. Qed.

(** C10: whatever the random source, in every example of the three
    generators, hand-written or made by the loop, the input text is the
    label, a newline and the rest; the label itself has no newline, so it
    is the first line of the text. *)
Theorem label_is_first_line_of_text (st : random_state) :
  Forall label_is_first_line (fst (Full.generate_training_data st)) /\
  Forall label_is_first_line (fst (Small.generate_simple_training_data st)) /\
  Forall label_is_first_line (fst (Tiny.generate_tiny_training_data st)).
Proof.
  destruct (full_generate st) as [sf [Hf [_ Af]]].
  destruct (small_generate st) as [ss [Hs [_ As]]].
  destruct (tiny_generate st) as [sx [Hx [_ Ax]]].
  rewrite Hf, Hs, Hx. clear Hf Hs Hx.
  repeat split; apply Forall_app; split.
  - apply full_hand_written_first_line.
  - revert Af. apply Forall_impl. intros ex.
    apply synthetic_first_line;
      [apply full_names_tokens | apply full_surnames_tokens].
  - apply small_hand_written_first_line.
  - revert As. apply Forall_impl. intros ex.
    apply synthetic_first_line;
      [apply small_names_tokens | apply small_surnames_tokens].
  - apply tiny_hand_written_first_line.
  - revert Ax. apply Forall_impl. intros ex.
    apply synthetic_first_line;
      [apply tiny_names_tokens | apply tiny_surnames_tokens].
Qed.

(* ===================================================================== *)
(** * Properties of the dataset builder *)
(* ===================================================================== *)

Lemma np_array_rectangular rows m :
  rows <> [] ->
  Forall (fun row => length row = m) rows ->
  np_array rows = Some (mk_ndarray [length rows; m] rows).
Proof.
  intros Hne Hall. destruct rows as [|row rows']; [congruence|].
  unfold np_array.
  assert (Hm : length row = m) by (inversion Hall; assumption).
  rewrite Hm.
  assert (Hb : forallb (same_length m) (row :: rows') = true).
  { apply forallb_forall. intros r Hr.
    rewrite Forall_forall in Hall. unfold same_length.
    apply Nat.eqb_eq. now apply Hall. }
  now rewrite Hb.
Qed.

Section Builder.

Variable max_code : Z.

Lemma builder_loop examples X y :
  for_each examples (builder_step max_code) (X, y) =
  (X ++ map (fun ex => encode max_code (fst ex) 200) examples,
   y ++ map (fun ex => encode max_code (snd ex) 50) examples).
Proof.
  unfold for_each, builder_step. revert X y.
  induction examples as [|[text name] examples IH]; intros X y; simpl.
  - now rewrite !app_nil_r.
  - rewrite IH. unfold append. now rewrite <- !app_assoc.
Qed.

Lemma encoded_rows_length (proj : example -> pystr) max_length n examples :
  0 <= max_length -> Z.to_nat max_length = n ->
  Forall (fun row => length row = n)
    (map (fun ex => encode max_code (proj ex) max_length) examples).
Proof.
  intros H Hn. apply Forall_forall. intros row Hrow.
  apply in_map_iff in Hrow. destruct Hrow as [ex [<- _]].
  pose proof (encode_length max_code (proj ex) max_length H) as Hlen.
  unfold len in Hlen. lia.
Qed.

Lemma builder_arrays examples :
  examples <> [] ->
  exists X y,
    (match np_array (fst (for_each examples (builder_step max_code) ([], []))),
           np_array (snd (for_each examples (builder_step max_code) ([], []))) with
     | Some X, Some y => Some (X, y)
     | _, _ => None
     end) = Some (X, y) /\
    shape X = [length examples; 200%nat] /\
    shape y = [length examples; 50%nat] /\
    length (data X) = length examples /\
    length (data y) = length examples /\
    Forall (fun row => length row = 200%nat) (data X) /\
    Forall (fun row => length row = 50%nat) (data y) /\
    forall i ex,
      nth_error examples i = Some ex ->
      nth_error (data X) i = Some (encode max_code (fst ex) 200) /\
      nth_error (data y) i = Some (encode max_code (snd ex) 50).
Proof.
  intros Hne. rewrite builder_loop. cbn [fst snd app].
  set (Xs := map (fun ex => encode max_code (fst ex) 200) examples).
  set (ys := map (fun ex => encode max_code (snd ex) 50) examples).
  assert (HX : Forall (fun row => length row = 200%nat) Xs)
    by (apply encoded_rows_length; [lia | reflexivity]).
  assert (Hy : Forall (fun row => length row = 50%nat) ys)
    by (apply encoded_rows_length; [lia | reflexivity]).
  assert (HXne : Xs <> []) by (subst Xs; destruct examples; [congruence | discriminate]).
  assert (Hyne : ys <> []) by (subst ys; destruct examples; [congruence | discriminate]).
  rewrite (np_array_rectangular Xs 200 HXne HX).
  rewrite (np_array_rectangular ys 50 Hyne Hy).
  eexists. eexists. split; [reflexivity|]. cbn [shape data].
  subst Xs ys. rewrite !length_map.
  repeat match goal with |- _ /\ _ => split end; auto.
  intros i ex Hex. rewrite !nth_error_map.
  unfold example in *. rewrite Hex. auto.
Qed.

End Builder.

Lemma generated_nonempty (fixed synth : list example) result :
  fixed <> [] -> result = fixed ++ synth -> result <> [].
Proof.
  intros Hne -> Happ. apply app_eq_nil in Happ. tauto.
Qed.

Lemma full_builds st :
  builds_dataset Full.create_training_data Full.generate_training_data
    Full.preprocess_text Full.preprocess_contact_name st.
Proof.
  destruct (full_generate st) as [synth [Hgen _]].
  unfold builds_dataset, Full.create_training_data, bind, ret.
  destruct (Full.generate_training_data st) as [examples st'].
  cbn [fst] in *.
  apply (builder_arrays 29999).
  apply (generated_nonempty Full.hand_written synth); [discriminate | exact Hgen].
Qed.

Lemma small_builds st :
  builds_dataset Small.create_training_data Small.generate_simple_training_data
    Small.preprocess_text_simple Small.preprocess_contact_name_simple st.
Proof.
  destruct (small_generate st) as [synth [Hgen _]].
  unfold builds_dataset, Small.create_training_data, bind, ret.
  destruct (Small.generate_simple_training_data st) as [examples st'].
  cbn [fst] in *.
  apply (builder_arrays 255).
  apply (generated_nonempty Small.hand_written synth); [discriminate | exact Hgen].
Qed.

Lemma tiny_builds st :
  builds_dataset Tiny.create_training_data Tiny.generate_tiny_training_data
    Tiny.preprocess_text_tiny Tiny.preprocess_contact_name_tiny st.
Proof.
  destruct (tiny_generate st) as [synth [Hgen _]].
  unfold builds_dataset, Tiny.create_training_data, bind, ret.
  destruct (Tiny.generate_tiny_training_data st) as [examples st'].
  cbn [fst] in *.
  apply (builder_arrays 127).
  apply (generated_nonempty Tiny.hand_written synth); [discriminate | exact Hgen].
Qed.

(** C9: whatever the random source, [create_training_data] returns two
    arrays [X] and [y] with one row per example of its generator, rows of
    200 and of 50 entries, and row [i] of [X] and of [y] is the encoding of
    the text and of the label of example [i]: nothing is dropped, moved or
    merged. *)
Theorem dataset_rows_follow_examples (st : random_state) :
  builds_dataset Full.create_training_data Full.generate_training_data
    Full.preprocess_text Full.preprocess_contact_name st /\
  builds_dataset Small.create_training_data Small.generate_simple_training_data
    Small.preprocess_text_simple Small.preprocess_contact_name_simple st /\
  builds_dataset Tiny.create_training_data Tiny.generate_tiny_training_data
    Tiny.preprocess_text_tiny Tiny.preprocess_contact_name_tiny st.
Proof.
  split; [apply full_builds | split; [apply small_builds | apply tiny_builds]].
Qed.

(* ===================================================================== *)
(** * Properties of the output stage *)
(* ===================================================================== *)

Section OutputStage.

Local Open Scope R_scope.

Lemma Rsum_app a b : Rsum (a ++ b) = Rsum a + Rsum b.
Proof.
  induction a as [|x a IH]; simpl; [lra | rewrite IH; lra].
Qed.

Lemma Rsum_nonneg l : Forall (fun p => 0 < p) l -> 0 <= Rsum l.
Proof.
  induction 1 as [|x l Hx _ IH]; simpl; lra.
Qed.

Lemma Rsum_pos l : Forall (fun p => 0 < p) l -> l <> [] -> 0 < Rsum l.
Proof.
  intros Hall Hne. destruct Hall as [|x l Hx Hl]; [congruence|].
  simpl. pose proof (Rsum_nonneg l Hl). lra.
Qed.

Lemma Rsum_concat grid : Rsum (concat grid) = Rsum (map Rsum grid).
Proof.
  induction grid as [|row grid IH]; simpl; [reflexivity|].
  now rewrite Rsum_app, IH.
Qed.

Lemma Rsum_scaled (f : R -> R) total v :
  Rsum (map (fun x => f x / total) v) = Rsum (map f v) / total.
Proof.
  induction v as [|x v IH]; simpl; [lra | rewrite IH; lra].
Qed.

Lemma exp_total_pos v : v <> [] -> 0 < Rsum (map exp v).
Proof.
  intros Hne. apply Rsum_pos.
  - apply Forall_forall. intros p Hp. apply in_map_iff in Hp.
    destruct Hp as [x [<- _]]. apply exp_pos.
  - destruct v; [congruence | discriminate].
Qed.

Lemma softmax_length v : length (softmax v) = length v.
Proof. unfold softmax. apply length_map. Qed.

Lemma softmax_pos v : Forall (fun p => 0 < p) (softmax v).
Proof.
  destruct v as [|x0 v0] eqn:Hv; [constructor|]. rewrite <- Hv.
  assert (Hne : v <> []) by (rewrite Hv; discriminate).
  pose proof (exp_total_pos v Hne) as Htotal.
  unfold softmax. apply Forall_forall. intros p Hp.
  apply in_map_iff in Hp. destruct Hp as [x [<- _]].
  apply Rdiv_lt_0_compat; [apply exp_pos | assumption].
Qed.

Lemma softmax_total v : v <> [] -> Rsum (softmax v) = 1.
Proof.
  intros Hne. pose proof (exp_total_pos v Hne) as Htotal.
  unfold softmax. rewrite Rsum_scaled. field. lra.
Qed.

Lemma Reshape_length rows cols v : length (Reshape rows cols v) = rows.
Proof.
  revert v. induction rows as [|rows IH]; intros v; simpl; auto.
Qed.

Lemma Reshape_concat rows cols v :
  length v = (rows * cols)%nat -> concat (Reshape rows cols v) = v.
Proof.
  revert v. induction rows as [|rows IH]; intros v Hlen; simpl.
  - destruct v; [reflexivity | discriminate].
  - rewrite IH; [apply firstn_skipn|].
    rewrite length_skipn. simpl in Hlen. lia.
Qed.

Lemma Reshape_row_length rows cols v :
  length v = (rows * cols)%nat ->
  Forall (fun row => length row = cols) (Reshape rows cols v).
Proof.
  revert v. induction rows as [|rows IH]; intros v Hlen; simpl.
  - constructor.
  - simpl in Hlen. constructor.
    + rewrite length_firstn. lia.
    + apply IH. rewrite length_skipn. lia.
Qed.

Lemma part_below_total sums s :
  Forall (fun p => 0 < p) sums -> (2 <= length sums)%nat ->
  In s sums -> s < Rsum sums.
Proof.
  intros Hall. revert s.
  induction Hall as [|x sums Hx Hsums IH]; intros s Hlen Hin.
  - contradiction.
  - simpl in *. destruct Hin as [<- | Hin].
    + assert (0 < Rsum sums); [|lra].
      apply Rsum_pos; [assumption|].
      destruct sums; [simpl in Hlen; lia | discriminate].
    + destruct sums as [|x1 [|x2 rest]].
      * contradiction.
      * destruct Hin as [<- | []]. simpl. lra.
      * assert (s < Rsum (x1 :: x2 :: rest)); [|lra].
        apply IH; [simpl; lia | assumption].
Qed.

Lemma softmax_grid rows cols v :
  (2 <= rows)%nat -> (1 <= cols)%nat -> length v = (rows * cols)%nat ->
  joint_distribution rows cols (Reshape rows cols (softmax v)).
Proof.
  intros Hrows Hcols Hlen.
  assert (Hne : v <> []) by (destruct v; [simpl in Hlen; nia | discriminate]).
  set (grid := Reshape rows cols (softmax v)).
  assert (Hlen' : length (softmax v) = (rows * cols)%nat)
    by now rewrite softmax_length.
  assert (Hshape : Forall (fun row => length row = cols) grid)
    by now apply Reshape_row_length.
  assert (Hflat : concat grid = softmax v) by now apply Reshape_concat.
  assert (Hpos : Forall (Forall (fun p => 0 < p)) grid).
  { apply Forall_concat. rewrite Hflat. apply softmax_pos. }
  assert (Htotal : Rsum (map Rsum grid) = 1).
  { rewrite <- Rsum_concat, Hflat. now apply softmax_total. }
  assert (Hsums : Forall (fun p => 0 < p) (map Rsum grid)).
  { apply Forall_forall. intros s Hs. apply in_map_iff in Hs.
    destruct Hs as [row [<- Hrow]].
    rewrite Forall_forall in Hpos, Hshape.
    apply Rsum_pos; [now apply Hpos|].
    specialize (Hshape row Hrow). destruct row; [simpl in Hshape; lia | discriminate]. }
  assert (Hbelow : Forall (fun row => 0 < Rsum row < 1) grid).
  { apply Forall_forall. intros row Hrow. split.
    - rewrite Forall_forall in Hsums. apply Hsums. now apply in_map.
    - rewrite <- Htotal. apply part_below_total; [assumption | |now apply in_map].
      rewrite length_map. unfold grid. rewrite Reshape_length. assumption. }
  unfold joint_distribution. repeat split; try assumption.
  - apply Reshape_length.
  - revert Hbelow. apply Forall_impl. intros row [_ Hlt] [_ Heq]. lra.
Qed.

Lemma output_stage (V : Z) (w_out : layer_weights) (hidden : list R) :
  (1 <= V)%Z ->
  joint_distribution (Z.to_nat 50) (Z.to_nat V)
    (Reshape (Z.to_nat 50) (Z.to_nat V)
       (Dense (Z.to_nat (50 * V)) softmax w_out hidden)).
Proof.
  intros HV. unfold Dense. apply softmax_grid; try lia.
  rewrite length_map, length_seq. lia.
Qed.

End OutputStage.

(** C6: whatever the weights and the input, the output stage yields a grid
    of 50 rows of [VOCAB_SIZE] positive entries that add up to 1 over the
    whole grid: the softmax runs over all 50 * [VOCAB_SIZE] outputs before
    they are reshaped, so every row adds up to less than 1 and no row is a
    probability distribution. *)
Theorem output_grid_is_one_joint_distribution
    (w1 w2 w3 w_out : layer_weights) (input_text : list R) :
  joint_distribution (Z.to_nat 50) (Z.to_nat Full.VOCAB_SIZE)
    (Full.create_contact_detection_model w1 w2 w3 w_out input_text) /\
  joint_distribution (Z.to_nat 50) (Z.to_nat Small.VOCAB_SIZE)
    (Small.create_small_contact_detection_model w1 w2 w_out input_text) /\
  joint_distribution (Z.to_nat 50) (Z.to_nat Tiny.VOCAB_SIZE)
    (Tiny.create_tiny_contact_detection_model w1 w2 w_out input_text).
Proof.
  repeat match goal with |- _ /\ _ => split end.
  - apply (output_stage Full.VOCAB_SIZE). unfold Full.VOCAB_SIZE. lia.
  - apply (output_stage Small.VOCAB_SIZE). unfold Small.VOCAB_SIZE. lia.
  - apply (output_stage Tiny.VOCAB_SIZE). unfold Tiny.VOCAB_SIZE. lia.
Qed.

(** The tiny network on the encoding of the hand-written text
    "John Smith\nOnline", with weights that are all zero: its first output
    row is not a probability distribution. *)
Lemma tiny_first_row_not_distribution :
  let no_weights := mk_layer_weights [] [] in
  let input_text := map IZR (Tiny.preprocess_text_tiny (py "John Smith\nOnline") 200) in
  let grid :=
    Tiny.create_tiny_contact_detection_model
      no_weights no_weights no_weights input_text in
  ~ distribution (nth 0 grid []).
Proof.
  intros no_weights input_text grid.
  assert (Hgrid : joint_distribution (Z.to_nat 50) (Z.to_nat Tiny.VOCAB_SIZE) grid).
  { apply (output_stage Tiny.VOCAB_SIZE). unfold Tiny.VOCAB_SIZE. lia. }
  destruct Hgrid as [Hlen [_ [_ [_ [_ Hnot]]]]].
  rewrite Forall_forall in Hnot. apply Hnot.
  apply nth_In. rewrite Hlen. lia.
Qed.

(* ===================================================================== *)
(** * Sanity checks of the embedding *)
(* ===================================================================== *)

Example str_int_7 : str_int 7 = py "7".
Proof. reflexivity. Qed.

Example format_02d_45 : format_02d 45 = py "45".
Proof. reflexivity. Qed.

Example format_02d_5 : format_02d 5 = py "05".
Proof. reflexivity. Qed.

Example slice_to_examples :
  slice_to (py "abcdef") 2 = py "ab" /\
  slice_to (py "abcdef") 10 = py "abcdef" /\
  slice_to (py "abcdef") (-2) = py "abcd" /\
  slice_to (py "abcdef") (-10) = [].
Proof. repeat split. Qed.

Example np_array_ragged : np_array [[1; 2]; [3]] = None.
Proof. reflexivity. Qed.

Example tiny_run_constant_source :
  let st := mk_random_state (fun n => n) 0 in
  map snd (skipn 5 (fst (Tiny.generate_tiny_training_data st))) =
  [ py "Alex Taylor"; py "Taylor Jackson"; py "Casey Anderson";
    py "Chris Thomas"; py "Jordan White"; py "Alex Taylor";
    py "Taylor Jackson"; py "Casey Anderson"; py "Chris Thomas";
    py "Jordan White" ].
Proof. vm_compute. reflexivity. Qed.


(* ===================================================================== *)
(** * Further properties of the encoder *)
(* ===================================================================== *)

Lemma every_encoder_intro (P : Z -> (pystr -> Z -> list Z) -> Prop) :
  (forall max_code, 0 <= max_code -> P max_code (encode max_code)) ->
  every_encoder P.
Proof.
  intros H. unfold every_encoder.
  repeat match goal with |- _ /\ _ => split end.
  - apply (H 29999). lia.
  - apply (H 29999). lia.
  - apply (H 255). lia.
  - apply (H 255). lia.
  - apply (H 127). lia.
  - apply (H 127). lia.
Qed.

Lemma encode_negative max_code text max_length :
  max_length < 0 ->
  encode max_code text max_length =
  map (clamp max_code) (firstn (Z.to_nat (len text + max_length)) text).
Proof.
  intros Hneg. rewrite encode_closed_form. unfold slice_to.
  destruct (Z.ltb_spec max_length 0); [|lia].
  replace (Z.to_nat (max_length - _)) with O by (unfold len; lia).
  apply app_nil_r.
Qed.

(** X1: A negative [max_length] is read as a bound counted from the end of the
    text: the encoders drop the last [-max_length] characters, pad nothing,
    and return [max(0, len(text) + max_length)] codes. *)
Theorem encoder_negative_max_length (text : pystr) (max_length : Z) :
  max_length < 0 ->
  every_encoder (fun max_code encode =>
    encode text max_length =
      map (clamp max_code) (firstn (Z.to_nat (len text + max_length)) text) /\
    len (encode text max_length) = Z.max 0 (len text + max_length)).
Proof.
  intros Hneg. apply every_encoder_intro. intros max_code _.
  rewrite encode_negative by assumption. split; [reflexivity|].
  unfold len. rewrite length_map, length_firstn. lia.
Qed.

Lemma encoder_negative_max_length_witness :
  -2 < 0 /\
  Full.preprocess_text (py "Online") (-2) = [79; 110; 108; 105].
Proof.
  split; [lia|].
  assert (Hneg : -2 < 0) by lia.
  pose proof (encoder_negative_max_length (py "Online") (-2) Hneg)
    as [[Henc _] _].
  exact Henc.
Defined.

Lemma encode_nth_error max_code text max_length i :
  0 <= max_length ->
  nth_error (encode max_code text max_length) i =
  if Z.of_nat i <? max_length
  then match nth_error text i with
       | Some c => Some (clamp max_code c)
       | None => Some 0
       end
  else None.
Proof.
  intros H. destruct (Z.ltb_spec (Z.of_nat i) max_length) as [Hlt|Hge].
  - destruct (nth_error text i) as [c|] eqn:Hc.
    + now apply encode_nth_char.
    + apply encode_nth_pad. apply nth_error_None in Hc. unfold len. lia.
  - apply nth_error_None.
    pose proof (encode_length max_code text max_length H) as Hlen.
    unfold len in Hlen. lia.
Qed.

Lemma encode_firstn max_code text shorter longer :
  0 <= shorter <= longer ->
  firstn (Z.to_nat shorter) (encode max_code text longer) =
  encode max_code text shorter.
Proof.
  intros H. apply nth_error_ext. intros i.
  rewrite nth_error_firstn, !encode_nth_error by lia.
  destruct (Nat.ltb_spec i (Z.to_nat shorter));
    destruct (Z.ltb_spec (Z.of_nat i) shorter); try lia; [|reflexivity].
  destruct (Z.ltb_spec (Z.of_nat i) longer); [reflexivity | lia].
Qed.

(** X2: Encoding to a shorter length is cutting the longer encoding: the first
    [shorter] codes of [encode text longer] are [encode text shorter].  So
    the name encoder (50) returns the first 50 codes of what the text
    encoder (200) returns on the same string. *)
Theorem encoder_shorter_is_prefix (text : pystr) (shorter longer : Z) :
  0 <= shorter <= longer ->
  every_encoder (fun _ encode =>
    firstn (Z.to_nat shorter) (encode text longer) = encode text shorter) /\
  firstn 50 (Full.preprocess_text text 200)
    = Full.preprocess_contact_name text 50 /\
  firstn 50 (Small.preprocess_text_simple text 200)
    = Small.preprocess_contact_name_simple text 50 /\
  firstn 50 (Tiny.preprocess_text_tiny text 200)
    = Tiny.preprocess_contact_name_tiny text 50.
Proof.
  intros H. split.
  - apply every_encoder_intro. intros max_code _. now apply encode_firstn.
  - repeat split; apply (encode_firstn _ text 50 200); lia.
Qed.

Lemma encoder_shorter_is_prefix_witness :
  0 <= 3 <= 5 /\
  firstn 3 (Tiny.preprocess_text_tiny (py "AB") 5)
    = Tiny.preprocess_text_tiny (py "AB") 3.
Proof.
  assert (H : 0 <= 3 <= 5) by lia.
  split; [exact H|].
  pose proof (encoder_shorter_is_prefix (py "AB") 3 5 H)
    as [[_ [_ [_ [_ [Htiny _]]]]] _].
  exact Htiny.
Defined.

Lemma zeros_tail_unique (l1 l2 : list Z) n1 n2 :
  Forall (fun v => v <> 0) l1 -> Forall (fun v => v <> 0) l2 ->
  l1 ++ repeat 0 n1 = l2 ++ repeat 0 n2 -> l1 = l2.
Proof.
  intros H1. revert l2.
  induction H1 as [|x l1 Hx _ IH]; intros l2 H2 Heq.
  - destruct H2 as [|y l2 Hy _]; [reflexivity|].
    destruct n1; simpl in Heq; [discriminate|].
    injection Heq as Hhead _. congruence.
  - destruct H2 as [|y l2 Hy H2].
    + destruct n2; simpl in Heq; [discriminate|].
      injection Heq as Hhead _. congruence.
    + simpl in Heq. injection Heq as Hhead Htail.
      f_equal; [assumption | now apply IH].
Qed.

Lemma clamp_representable max_code text :
  representable max_code text -> map (clamp max_code) text = map ord text.
Proof.
  intros H. apply map_ext_in. intros c Hc.
  unfold representable in H. rewrite Forall_forall in H.
  specialize (H c Hc). unfold clamp. lia.
Qed.

Lemma map_ord_injective (s t : pystr) : map ord s = map ord t -> s = t.
Proof.
  revert t. induction s as [|c s IH]; intros [|d t] H; simpl in H;
    try discriminate; [reflexivity|].
  injection H as Hc Hs. f_equal; [unfold ord in Hc; lia | now apply IH].
Qed.

Lemma encode_representable max_code text max_length :
  representable max_code text -> len text <= max_length ->
  encode max_code text max_length =
  map ord text ++ repeat 0 (Z.to_nat (max_length - len text)).
Proof.
  intros Hrep Hlen. rewrite encode_closed_form.
  assert (H0 : 0 <= max_length) by (unfold len in Hlen; lia).
  rewrite slice_to_nonneg by assumption.
  rewrite firstn_all2 by (unfold len in Hlen; lia).
  now rewrite clamp_representable.
Qed.

Lemma map_ord_nonzero max_code text :
  representable max_code text -> Forall (fun v => v <> 0) (map ord text).
Proof.
  intros H. apply Forall_forall. intros v Hv.
  apply in_map_iff in Hv. destruct Hv as [c [<- Hc]].
  unfold representable in H. rewrite Forall_forall in H.
  specialize (H c Hc). lia.
Qed.

(** X3: On texts that fit in [max_length] and whose characters are neither NUL
    nor above the cap, the encoders lose nothing: two such texts with the
    same encoding are the same text. *)
Theorem encoder_injective_on_representable
    (s t : pystr) (max_length : Z) :
  len s <= max_length -> len t <= max_length ->
  every_encoder (fun max_code encode =>
    representable max_code s -> representable max_code t ->
    encode s max_length = encode t max_length -> s = t).
Proof.
  intros Hs Ht. apply every_encoder_intro.
  intros max_code _ Hrs Hrt Heq.
  rewrite !encode_representable in Heq by assumption.
  apply map_ord_injective.
  eapply zeros_tail_unique; [| |exact Heq]; eapply map_ord_nonzero; eassumption.
Qed.

Lemma encoder_injective_on_representable_witness :
  len (py "Mike Chen") <= 50 /\ py "Mike Chen" = py "Mike Chen".
Proof.
  assert (Hlen : len (py "Mike Chen") <= 50) by (vm_compute; congruence).
  split; [exact Hlen|].
  pose proof (encoder_injective_on_representable
                (py "Mike Chen") (py "Mike Chen") 50 Hlen Hlen)
    as [_ [Hname _]].
  apply Hname.
  - repeat constructor; vm_compute; discriminate.
  - repeat constructor; vm_compute; discriminate.
  - reflexivity.
Defined.

(** X4: The padding token is the code of the NUL character: a text that is
    shorter than [max_length] and the same text with a NUL appended encode
    alike. *)
Theorem encoder_nul_is_padding (text : pystr) (max_length : Z) :
  len text < max_length ->
  every_encoder (fun _ encode =>
    encode (text ++ [0%N]) max_length = encode text max_length).
Proof.
  intros Hlen. apply every_encoder_intro. intros max_code Hcap.
  rewrite !encode_closed_form.
  assert (H0 : 0 <= max_length) by (unfold len in Hlen; lia).
  rewrite !slice_to_nonneg by assumption.
  unfold len in *.
  rewrite !firstn_all2 by (rewrite ?length_app; simpl; lia).
  rewrite map_app, length_app, <- app_assoc. simpl. f_equal.
  replace (clamp max_code 0%N) with 0 by (unfold clamp, ord; lia).
  replace (Z.to_nat (max_length - Z.of_nat (length text)))
    with (S (Z.to_nat (max_length - Z.of_nat (length text + 1)))) by lia.
  reflexivity.
Qed.

Lemma encoder_nul_is_padding_witness :
  len (py "AB") < 5 /\
  Tiny.preprocess_text_tiny (py "AB" ++ [0%N]) 5
    = Tiny.preprocess_text_tiny (py "AB") 5.
Proof.
  assert (Hlen : len (py "AB") < 5) by (vm_compute; reflexivity).
  split; [exact Hlen|].
  pose proof (encoder_nul_is_padding (py "AB") 5 Hlen)
    as [_ [_ [_ [_ [Htiny _]]]]].
  exact Htiny.
Defined.

Lemma encode_same_codes max_code s t max_length :
  map (clamp max_code) s = map (clamp max_code) t ->
  encode max_code s max_length = encode max_code t max_length.
Proof.
  intros Hcodes. rewrite !encode_closed_form.
  assert (Hlen : length s = length t)
    by (rewrite <- (length_map (clamp max_code) s), Hcodes; apply length_map).
  unfold slice_to, len. rewrite Hlen.
  destruct (max_length <? 0);
    rewrite <- !firstn_map, Hcodes, !length_firstn, Hlen; reflexivity.
Qed.

(** X5: Characters above the cap cannot be told apart: replacing one of them by
    any other character above the cap leaves the encoding unchanged. *)
Theorem encoder_merges_characters_above_cap
    (before after : pystr) (c1 c2 : codepoint) (max_length : Z) :
  every_encoder (fun max_code encode =>
    max_code < ord c1 -> max_code < ord c2 ->
    encode (before ++ c1 :: after) max_length
      = encode (before ++ c2 :: after) max_length).
Proof.
  apply every_encoder_intro. intros max_code _ H1 H2.
  apply encode_same_codes. rewrite !map_app. simpl.
  now rewrite !clamp_saturates.
Qed.

Lemma encode_recapped low high text max_length :
  0 <= low <= high ->
  encode low text max_length = map (Z.min low) (encode high text max_length).
Proof.
  intros H. rewrite !encode_closed_form, map_app, map_map, map_repeat.
  f_equal.
  - apply map_ext. intros c. unfold clamp. lia.
  - f_equal. lia.
Qed.

(** X6: The three scripts' encodings differ by their caps only: the small
    encoding is the full one capped at 255, the tiny encoding is the small
    one (and the full one) capped at 127. *)
Theorem encoders_differ_by_cap (text : pystr) (max_length : Z) :
  Small.preprocess_text_simple text max_length
    = map (Z.min 255) (Full.preprocess_text text max_length) /\
  Tiny.preprocess_text_tiny text max_length
    = map (Z.min 127) (Small.preprocess_text_simple text max_length) /\
  Tiny.preprocess_text_tiny text max_length
    = map (Z.min 127) (Full.preprocess_text text max_length) /\
  Small.preprocess_contact_name_simple text max_length
    = map (Z.min 255) (Full.preprocess_contact_name text max_length) /\
  Tiny.preprocess_contact_name_tiny text max_length
    = map (Z.min 127) (Small.preprocess_contact_name_simple text max_length) /\
  Tiny.preprocess_contact_name_tiny text max_length
    = map (Z.min 127) (Full.preprocess_contact_name text max_length).
Proof.
  repeat split; apply encode_recapped; lia.
Qed.

Lemma in_firstn_in {A} (x : A) n l : In x (firstn n l) -> In x l.
Proof.
  intros H. rewrite <- (firstn_skipn n l). apply in_or_app. now left.
Qed.

Lemma encode_below_caps low high text max_length :
  Forall (fun c => ord c <= low) text -> low <= high ->
  encode low text max_length = encode high text max_length.
Proof.
  intros Hall Hle. rewrite !encode_closed_form. f_equal.
  apply map_ext_in. intros c Hc.
  assert (Hin : In c text).
  { unfold slice_to in Hc.
    destruct (max_length <? 0); eapply in_firstn_in; exact Hc. }
  rewrite Forall_forall in Hall. specialize (Hall c Hin).
  unfold clamp. lia.
Qed.

(** X7: On a text of 7-bit characters (code points up to 127) the three
    scripts' encoders return the same sequence. *)
Theorem encoders_agree_on_ascii (text : pystr) (max_length : Z) :
  Forall (fun c => ord c <= 127) text ->
  Full.preprocess_text text max_length
    = Small.preprocess_text_simple text max_length /\
  Small.preprocess_text_simple text max_length
    = Tiny.preprocess_text_tiny text max_length /\
  Full.preprocess_contact_name text max_length
    = Small.preprocess_contact_name_simple text max_length /\
  Small.preprocess_contact_name_simple text max_length
    = Tiny.preprocess_contact_name_tiny text max_length.
Proof.
  intros Hascii.
  assert (Hfull : encode 127 text max_length = encode 29999 text max_length)
    by (apply encode_below_caps; [assumption | lia]).
  assert (Hsmall : encode 127 text max_length = encode 255 text max_length)
    by (apply encode_below_caps; [assumption | lia]).
  unfold Full.preprocess_text, Full.preprocess_contact_name,
    Small.preprocess_text_simple, Small.preprocess_contact_name_simple,
    Tiny.preprocess_text_tiny, Tiny.preprocess_contact_name_tiny.
  repeat split; congruence.
Qed.

Lemma encoders_agree_on_ascii_witness :
  Forall (fun c => ord c <= 127) (py "AB") /\
  Full.preprocess_text (py "AB") 5 = Small.preprocess_text_simple (py "AB") 5.
Proof.
  assert (Hascii : Forall (fun c => ord c <= 127) (py "AB"))
    by (repeat constructor; vm_compute; congruence).
  split; [exact Hascii|].
  pose proof (encoders_agree_on_ascii (py "AB") 5 Hascii) as [Hfs _].
  exact Hfs.
Defined.

Lemma encoder_merges_characters_above_cap_witness :
  127 < ord 8364%N /\ 127 < ord 233%N /\
  Tiny.preprocess_text_tiny (py "caf" ++ 8364%N :: py "s") 8
    = Tiny.preprocess_text_tiny (py "caf" ++ 233%N :: py "s") 8.
Proof.
  assert (H1 : 127 < ord 8364%N) by (vm_compute; reflexivity).
  assert (H2 : 127 < ord 233%N) by (vm_compute; reflexivity).
  split; [exact H1|]. split; [exact H2|].
  pose proof (encoder_merges_characters_above_cap
                (py "caf") (py "s") 8364%N 233%N 8)
    as [_ [_ [_ [_ [Htiny _]]]]].
  exact (Htiny H1 H2).
Defined.

Lemma encode_app max_code s t max_length :
  len s <= max_length ->
  encode max_code (s ++ t) max_length =
  map (clamp max_code) s ++ encode max_code t (max_length - len s).
Proof.
  intros Hlen. unfold len in Hlen.
  rewrite !encode_closed_form, !slice_to_nonneg by (unfold len; lia).
  rewrite firstn_app, (firstn_all2 s) by lia.
  rewrite map_app, <- app_assoc. f_equal.
  replace (Z.to_nat (max_length - len s))
    with (Z.to_nat max_length - length s)%nat by (unfold len; lia).
  do 2 f_equal. unfold len. rewrite length_app. lia.
Qed.

(** X8: Encoding goes through concatenation: when the first part fits, the
    encoding of [s ++ t] is the codes of [s] followed by the encoding of
    [t] to the length that is left. *)
Theorem encoder_of_concatenation (s t : pystr) (max_length : Z) :
  len s <= max_length ->
  every_encoder (fun max_code encode =>
    encode (s ++ t) max_length =
    map (clamp max_code) s ++ encode t (max_length - len s)).
Proof.
  intros Hlen. apply every_encoder_intro. intros max_code _.
  now apply encode_app.
Qed.

Lemma encoder_of_concatenation_witness :
  len (py "AB") <= 5 /\
  Small.preprocess_text_simple (py "AB" ++ py "CDEF") 5
    = [65; 66] ++ Small.preprocess_text_simple (py "CDEF") 3.
Proof.
  assert (Hlen : len (py "AB") <= 5) by (vm_compute; congruence).
  split; [exact Hlen|].
  pose proof (encoder_of_concatenation (py "AB") (py "CDEF") 5 Hlen)
    as [_ [_ [Hsmall _]]].
  exact Hsmall.
Defined.

(* ===================================================================== *)
(** * Further properties of the example generators *)
(* ===================================================================== *)

Lemma randint_range low high st :
  low < high -> low <= fst (randint low high st) < high.
Proof.
  intros H. unfold randint, bind, next_raw, ret. simpl.
  pose proof (Z.mod_pos_bound (Z.of_nat (draws st (cursor st))) (high - low)).
  lia.
Qed.

Lemma in_range_forallb (P : Z -> bool) (lo : nat) (n : nat) :
  forallb P (map Z.of_nat (seq lo n)) = true ->
  forall z, Z.of_nat lo <= z < Z.of_nat (lo + n) -> P z = true.
Proof.
  intros Hall z Hz. rewrite forallb_forall in Hall. apply Hall.
  apply in_map_iff. exists (Z.to_nat z). split; [lia|].
  apply in_seq. lia.
Qed.

Lemma format_02d_two_digits minute :
  10 <= minute <= 59 -> format_02d minute = str_int minute.
Proof.
  intros H.
  pose (same := fun z =>
          if list_eq_dec N.eq_dec (format_02d z) (str_int z)
          then true else false).
  assert (Hb : same minute = true).
  { apply (in_range_forallb same 10 50); [vm_compute; reflexivity | lia]. }
  unfold same in Hb.
  destruct (list_eq_dec N.eq_dec (format_02d minute) (str_int minute));
    [assumption | discriminate].
Qed.

Ltac run_template :=
  intros acc i st;
  cbv beta zeta delta [Full.synthesize Small.synthesize Tiny.synthesize bind ret];
  repeat (match goal with
          | |- context [choice ?xs ?s] =>
              let H := fresh "Hin" in
              assert (H : In (fst (choice xs s)) xs)
                by (apply choice_In; discriminate);
              destruct (choice xs s)
          | |- context [randint ?a ?b ?s] =>
              let H := fresh "Hrange" in
              assert (H : a <= fst (randint a b s) < b)
                by (apply randint_range; lia);
              destruct (randint a b s)
          end; cbv beta zeta);
  cbn [fst snd] in *.

Lemma full_synthesize_template acc i st :
  exists ex, fst (Full.synthesize acc i st) = acc ++ [ex] /\ full_template ex.
Proof.
  revert acc i st. run_template.
  eexists. split; [reflexivity|].
  rewrite format_02d_two_digits by lia.
  match goal with
  | H1 : In ?f Full.names, H2 : In ?l Full.surnames,
    H3 : In ?s Full.status_options,
    H4 : 1 <= ?h < 12, H5 : 10 <= ?m < 60 |- _ => exists f, l, s, h, m
  end.
  cbn [fst snd].
  repeat match goal with |- _ /\ _ => split end;
    try assumption; try reflexivity; lia.
Qed.

Lemma small_synthesize_template acc i st :
  exists ex, fst (Small.synthesize acc i st) = acc ++ [ex] /\ small_template ex.
Proof.
  revert acc i st. run_template.
  eexists. split; [reflexivity|].
  do 3 eexists. cbn [fst snd].
  repeat match goal with |- _ /\ _ => split end;
    try eassumption; reflexivity.
Qed.

Lemma tiny_synthesize_template acc i st :
  exists ex, fst (Tiny.synthesize acc i st) = acc ++ [ex] /\ tiny_template ex.
Proof.
  revert acc i st. run_template.
  eexists. split; [reflexivity|].
  do 2 eexists. cbn [fst snd].
  repeat match goal with |- _ /\ _ => split end;
    try eassumption; reflexivity.
Qed.

Lemma full_generate_template st :
  exists made,
    fst (Full.generate_training_data st) = Full.hand_written ++ made /\
    length made = 50%nat /\ Forall full_template made.
Proof.
  unfold Full.generate_training_data.
  destruct (for_each_M_appends _ _ full_synthesize_template (range 50)
              Full.hand_written st) as [made [H1 [H2 H3]]].
  exists made. unfold range in H2. rewrite length_seq in H2. auto.
Qed.

Lemma small_generate_template st :
  exists made,
    fst (Small.generate_simple_training_data st) = Small.hand_written ++ made /\
    length made = 20%nat /\ Forall small_template made.
Proof.
  unfold Small.generate_simple_training_data.
  destruct (for_each_M_appends _ _ small_synthesize_template (range 20)
              Small.hand_written st) as [made [H1 [H2 H3]]].
  exists made. unfold range in H2. rewrite length_seq in H2. auto.
Qed.

Lemma tiny_generate_template st :
  exists made,
    fst (Tiny.generate_tiny_training_data st) = Tiny.hand_written ++ made /\
    length made = 10%nat /\ Forall tiny_template made.
Proof.
  unfold Tiny.generate_tiny_training_data.
  destruct (for_each_M_appends _ _ tiny_synthesize_template (range 10)
              Tiny.hand_written st) as [made [H1 [H2 H3]]].
  exists made. unfold range in H2. rewrite length_seq in H2. auto.
Qed.

(** X9: Whatever the random source, every text the full script's loop builds
    is: the label, a status line out of the four options, and the line
    "Last seen today at H:MM PM" with H from 1 to 11 and MM from 10 to 59,
    both in plain decimal: the hour is never 12 and the two-digit padding
    of the minutes never has to add a zero. *)
Theorem full_synthetic_text_template (st : random_state) :
  synthetic_examples (fst (Full.generate_training_data st))
    Full.hand_written full_template.
Proof.
  destruct (full_generate_template st) as [made [Hgen [_ Hall]]].
  exists made. split; assumption.
Qed.

(** X10: Whatever the random source, every text the small script's loop builds
    is the label, one of the four status lines and the fixed line
    "Last seen today"; every text the tiny script's loop builds is the
    label and the fixed line "Online". *)
Theorem small_tiny_synthetic_text_template (st : random_state) :
  synthetic_examples (fst (Small.generate_simple_training_data st))
    Small.hand_written small_template /\
  synthetic_examples (fst (Tiny.generate_tiny_training_data st))
    Tiny.hand_written tiny_template.
Proof.
  destruct (small_generate_template st) as [ms [Hs [_ As]]].
  destruct (tiny_generate_template st) as [mt [Ht [_ At]]].
  split; [exists ms | exists mt]; split; assumption.
Qed.

Lemma advance_advance a b st : advance a (advance b st) = advance (a + b) st.
Proof. unfold advance. simpl. f_equal. lia. Qed.

Lemma advance_zero st : advance 0 st = st.
Proof. now destruct st. Qed.

Section Draws.

Variable k : nat.
Variable body : list example -> nat -> Rand (list example).
Hypothesis body_draws : forall acc i st, snd (body acc i st) = advance k st.

Lemma for_each_M_draws (xs : list nat) :
  forall acc st,
    snd (for_each_M xs body acc st) = advance (length xs * k) st.
Proof.
  induction xs as [|x xs IH]; intros acc st; simpl.
  - now rewrite advance_zero.
  - unfold bind. specialize (body_draws acc x st).
    destruct (body acc x st) as [acc' st']. simpl in body_draws.
    rewrite IH, body_draws, advance_advance. f_equal. lia.
Qed.

End Draws.

Lemma full_synthesize_draws acc i st :
  snd (Full.synthesize acc i st) = advance 5 st.
Proof. reflexivity. Qed.

Lemma small_synthesize_draws acc i st :
  snd (Small.synthesize acc i st) = advance 3 st.
Proof. reflexivity. Qed.

Lemma tiny_synthesize_draws acc i st :
  snd (Tiny.synthesize acc i st) = advance 2 st.
Proof. reflexivity. Qed.

(** X11: A run of a generator calls the random source a fixed number of times,
    whatever it draws: 250 times in the full script (five calls in each of
    50 rounds), 60 in the small one, 20 in the tiny one; and
    [create_training_data] calls it through its generator only. *)
Theorem generators_draw_counts (st : random_state) :
  (snd (Full.generate_training_data st) = advance 250 st /\
   snd (Full.create_training_data st) = advance 250 st) /\
  (snd (Small.generate_simple_training_data st) = advance 60 st /\
   snd (Small.create_training_data st) = advance 60 st) /\
  (snd (Tiny.generate_tiny_training_data st) = advance 20 st /\
   snd (Tiny.create_training_data st) = advance 20 st).
Proof.
  assert (Hf : snd (Full.generate_training_data st) = advance 250 st)
    by apply (for_each_M_draws 5 _ full_synthesize_draws (range 50)).
  assert (Hs : snd (Small.generate_simple_training_data st) = advance 60 st)
    by apply (for_each_M_draws 3 _ small_synthesize_draws (range 20)).
  assert (Ht : snd (Tiny.generate_tiny_training_data st) = advance 20 st)
    by apply (for_each_M_draws 2 _ tiny_synthesize_draws (range 10)).
  repeat match goal with |- _ /\ _ => split end.
  - exact Hf.
  - rewrite <- Hf. clear. unfold Full.create_training_data, bind, ret.
    destruct (Full.generate_training_data st). reflexivity.
  - exact Hs.
  - rewrite <- Hs. clear. unfold Small.create_training_data, bind, ret.
    destruct (Small.generate_simple_training_data st). reflexivity.
  - exact Ht.
  - rewrite <- Ht. clear. unfold Tiny.create_training_data, bind, ret.
    destruct (Tiny.generate_tiny_training_data st). reflexivity.
Qed.

Lemma same_draws_step n st st' :
  same_draws (S n) st st' ->
  draws st (cursor st) = draws st' (cursor st') /\
  same_draws n (advance 1 st) (advance 1 st').
Proof.
  intros [Hc Hd]. split.
  - apply (Hd O). lia.
  - split; simpl; [now rewrite Hc|].
    intros k Hk. rewrite !Nat.add_succ_r. apply (Hd (S k)). lia.
Qed.

Lemma reads_ret {A} (a : A) : reads 0 (ret a).
Proof. intros n st st' H. split; [reflexivity | exact H]. Qed.

Lemma reads_next_raw : reads 1 next_raw.
Proof.
  intros n st st' H. apply same_draws_step in H. exact H.
Qed.

Lemma reads_bind {A B} j k (m : Rand A) (f : A -> Rand B) :
  reads j m -> (forall a, reads k (f a)) -> reads (j + k) (bind m f).
Proof.
  intros Hm Hf n st st' H. rewrite <- Nat.add_assoc in H.
  destruct (Hm _ _ _ H) as [Hfst Hsnd]. unfold bind.
  destruct (m st) as [a st1], (m st') as [a' st1']. simpl in *. subst a'.
  now apply Hf.
Qed.

Lemma reads_choice xs : reads 1 (choice xs).
Proof.
  apply (reads_bind 1 0); [apply reads_next_raw | intros; apply reads_ret].
Qed.

Lemma reads_randint low high : reads 1 (randint low high).
Proof.
  apply (reads_bind 1 0); [apply reads_next_raw | intros; apply reads_ret].
Qed.

Lemma reads_for_each_M {S} k (body : S -> nat -> Rand S) :
  (forall acc x, reads k (body acc x)) ->
  forall xs acc, reads (length xs * k) (for_each_M xs body acc).
Proof.
  intros Hbody xs. induction xs as [|x xs IH]; intros acc; simpl.
  - apply reads_ret.
  - apply reads_bind; [apply Hbody | intros; apply IH].
Qed.

Ltac reads_body :=
  repeat first
    [ apply reads_ret
    | apply (reads_bind 1); [first [apply reads_choice | apply reads_randint]|];
      intros ?; cbv zeta ].

Lemma full_synthesize_reads acc i : reads 5 (Full.synthesize acc i).
Proof.
  unfold Full.synthesize.
  change 5%nat with (1 + (1 + (1 + (1 + (1 + 0)))))%nat. reads_body.
Qed.

Lemma small_synthesize_reads acc i : reads 3 (Small.synthesize acc i).
Proof.
  unfold Small.synthesize.
  change 3%nat with (1 + (1 + (1 + 0)))%nat. reads_body.
Qed.

Lemma tiny_synthesize_reads acc i : reads 2 (Tiny.synthesize acc i).
Proof.
  unfold Tiny.synthesize.
  change 2%nat with (1 + (1 + 0))%nat. reads_body.
Qed.

Lemma reads_result {A} k (m : Rand A) st st' :
  reads k m -> same_draws k st st' -> fst (m st) = fst (m st').
Proof.
  intros Hm H. apply (Hm O). now rewrite Nat.add_0_r.
Qed.

Lemma reads_builder k (generator : Rand (list example))
    (finish : list example -> option (ndarray * ndarray)) :
  reads k generator ->
  reads k (training_examples <- generator ;; ret (finish training_examples)).
Proof.
  intros H. rewrite <- (Nat.add_0_r k).
  apply reads_bind; [assumption | intros; apply reads_ret].
Qed.

(** X12: The examples and the dataset of a run are a function of the draws the
    run makes: two random sources that agree on the next 250 (full), 60
    (small) or 20 (tiny) draws give the same examples and the same arrays,
    whatever they hold afterwards. *)
Theorem generators_depend_on_their_draws (st st' : random_state) :
  (same_draws 250 st st' ->
   fst (Full.generate_training_data st) = fst (Full.generate_training_data st') /\
   fst (Full.create_training_data st) = fst (Full.create_training_data st')) /\
  (same_draws 60 st st' ->
   fst (Small.generate_simple_training_data st)
     = fst (Small.generate_simple_training_data st') /\
   fst (Small.create_training_data st) = fst (Small.create_training_data st')) /\
  (same_draws 20 st st' ->
   fst (Tiny.generate_tiny_training_data st)
     = fst (Tiny.generate_tiny_training_data st') /\
   fst (Tiny.create_training_data st) = fst (Tiny.create_training_data st')).
Proof.
  assert (Hf : reads 250 Full.generate_training_data)
    by apply (reads_for_each_M 5 _ full_synthesize_reads (range 50)).
  assert (Hs : reads 60 Small.generate_simple_training_data)
    by apply (reads_for_each_M 3 _ small_synthesize_reads (range 20)).
  assert (Ht : reads 20 Tiny.generate_tiny_training_data)
    by apply (reads_for_each_M 2 _ tiny_synthesize_reads (range 10)).
  repeat match goal with |- _ /\ _ => split end; intros Hsame.
  - split; [exact (reads_result _ _ _ _ Hf Hsame)|].
    apply (reads_result 250); [|exact Hsame].
    apply reads_builder. exact Hf.
  - split; [exact (reads_result _ _ _ _ Hs Hsame)|].
    apply (reads_result 60); [|exact Hsame].
    apply reads_builder. exact Hs.
  - split; [exact (reads_result _ _ _ _ Ht Hsame)|].
    apply (reads_result 20); [|exact Hsame].
    apply reads_builder. exact Ht.
Qed.

Lemma generators_depend_on_their_draws_witness :
  let st := mk_random_state (fun n => n) 0 in
  let st' := mk_random_state (fun n => if (n <? 20)%nat then n else 7%nat) 0 in
  same_draws 20 st st' /\
  fst (Tiny.generate_tiny_training_data st)
    = fst (Tiny.generate_tiny_training_data st').
Proof.
  intros st st'.
  assert (Hsame : same_draws 20 st st').
  { split; [reflexivity|]. intros k Hk. simpl. rewrite Nat.add_0_r.
    destruct (Nat.ltb_spec k 20); [reflexivity | lia]. }
  split; [exact Hsame|].
  pose proof (generators_depend_on_their_draws st st') as [_ [_ Htiny]].
  exact (proj1 (Htiny Hsame)).
Defined.

Lemma plain_within_b_true n s : plain_within_b n s = true -> plain_within n s.
Proof.
  unfold plain_within_b, plain_within, representable. intros H.
  apply andb_prop in H. destruct H as [Hall Hlen]. split.
  - apply Forall_forall. intros c Hc.
    rewrite forallb_forall in Hall. specialize (Hall c Hc).
    apply andb_prop in Hall. lia.
  - now apply Nat.leb_le.
Qed.

Lemma pool_within n pool :
  forallb (plain_within_b n) pool = true ->
  forall x, In x pool -> plain_within n x.
Proof.
  intros H x Hx. apply plain_within_b_true.
  rewrite forallb_forall in H. now apply H.
Qed.

Lemma examples_within n_text n_label (examples : list example) :
  forallb (fun ex => plain_within_b n_text (fst ex)
                     && plain_within_b n_label (snd ex)) examples = true ->
  Forall (example_within n_text n_label) examples.
Proof.
  intros H. apply Forall_forall. intros ex Hex.
  rewrite forallb_forall in H. specialize (H ex Hex).
  apply andb_prop in H. split; apply plain_within_b_true; tauto.
Qed.

Lemma clock_number_within z : 1 <= z <= 59 -> plain_within 2 (str_int z).
Proof.
  intros H. apply plain_within_b_true.
  apply (in_range_forallb (fun z => plain_within_b 2 (str_int z)) 1 59);
    [vm_compute; reflexivity | lia].
Qed.

Ltac literal_within := apply plain_within_b_true; vm_compute; reflexivity.

Ltac within_by_parts :=
  unfold plain_within, representable in *;
  rewrite ?Forall_app, ?length_app;
  repeat match goal with
         | H : _ /\ _ |- _ => destruct H
         end;
  repeat match goal with |- _ /\ _ => split end;
  try assumption; lia.

Lemma full_template_within ex : full_template ex -> example_within 63 15 ex.
Proof.
  intros (f & l & s & h & m & Hf & Hl & Hs & Hh & Hm & Hsnd & Hfst).
  assert (Pf : plain_within 6 f)
    by (apply (pool_within 6 Full.names); [vm_compute; reflexivity | exact Hf]).
  assert (Pl : plain_within 8 l)
    by (apply (pool_within 8 Full.surnames); [vm_compute; reflexivity | exact Hl]).
  assert (Ps : plain_within 19 s)
    by (apply (pool_within 19 Full.status_options);
        [vm_compute; reflexivity | exact Hs]).
  assert (Ph : plain_within 2 (str_int h)) by (apply clock_number_within; lia).
  assert (Pm : plain_within 2 (str_int m)) by (apply clock_number_within; lia).
  assert (L1 : plain_within 1 (py " ")) by literal_within.
  assert (L2 : plain_within 1 (py "\n")) by literal_within.
  assert (L3 : plain_within 20 (py "\nLast seen today at ")) by literal_within.
  assert (L4 : plain_within 1 (py ":")) by literal_within.
  assert (L5 : plain_within 3 (py " PM")) by literal_within.
  clear Hf Hl Hs.
  unfold example_within. rewrite Hfst, Hsnd. clear Hfst Hsnd.
  split; within_by_parts.
Qed.

Lemma small_template_within ex : small_template ex -> example_within 51 15 ex.
Proof.
  intros (f & l & s & Hf & Hl & Hs & Hsnd & Hfst).
  assert (Pf : plain_within 6 f)
    by (apply (pool_within 6 Small.names); [vm_compute; reflexivity | exact Hf]).
  assert (Pl : plain_within 8 l)
    by (apply (pool_within 8 Small.surnames); [vm_compute; reflexivity | exact Hl]).
  assert (Ps : plain_within 19 s)
    by (apply (pool_within 19 Small.status_options);
        [vm_compute; reflexivity | exact Hs]).
  assert (L1 : plain_within 1 (py " ")) by literal_within.
  assert (L2 : plain_within 1 (py "\n")) by literal_within.
  assert (L3 : plain_within 16 (py "\nLast seen today")) by literal_within.
  clear Hf Hl Hs.
  unfold example_within. rewrite Hfst, Hsnd. clear Hfst Hsnd.
  split; within_by_parts.
Qed.

Lemma tiny_template_within ex : tiny_template ex -> example_within 22 15 ex.
Proof.
  intros (f & l & Hf & Hl & Hsnd & Hfst).
  assert (Pf : plain_within 6 f)
    by (apply (pool_within 6 Tiny.names); [vm_compute; reflexivity | exact Hf]).
  assert (Pl : plain_within 8 l)
    by (apply (pool_within 8 Tiny.surnames); [vm_compute; reflexivity | exact Hl]).
  assert (L1 : plain_within 1 (py " ")) by literal_within.
  assert (L2 : plain_within 7 (py "\nOnline")) by literal_within.
  clear Hf Hl.
  unfold example_within. rewrite Hfst, Hsnd. clear Hfst Hsnd.
  split; within_by_parts.
Qed.

Lemma full_generate_within st :
  Forall (example_within 63 15) (fst (Full.generate_training_data st)).
Proof.
  destruct (full_generate_template st) as [made [Hgen [_ Hall]]].
  rewrite Hgen. clear Hgen. apply Forall_app. split.
  - apply examples_within. vm_compute. reflexivity.
  - revert Hall. apply Forall_impl. exact full_template_within.
Qed.

Lemma small_generate_within st :
  Forall (example_within 51 15) (fst (Small.generate_simple_training_data st)).
Proof.
  destruct (small_generate_template st) as [made [Hgen [_ Hall]]].
  rewrite Hgen. clear Hgen. apply Forall_app. split.
  - apply examples_within. vm_compute. reflexivity.
  - revert Hall. apply Forall_impl. exact small_template_within.
Qed.

Lemma tiny_generate_within st :
  Forall (example_within 22 15) (fst (Tiny.generate_tiny_training_data st)).
Proof.
  destruct (tiny_generate_template st) as [made [Hgen [_ Hall]]].
  rewrite Hgen. clear Hgen. apply Forall_app. split.
  - apply examples_within. vm_compute. reflexivity.
  - revert Hall. apply Forall_impl. exact tiny_template_within.
Qed.

(** X13: Whatever the random source, every example of the three generators is
    made of characters of [[1, 127]] only (no NUL, nothing above 7 bits),
    its text has at most 63 (full), 51 (small) or 22 (tiny) characters and
    its label at most 15: well inside the 200 and 50 the encoders keep. *)
Theorem generated_examples_are_short_ascii (st : random_state) :
  Forall (example_within 63 15) (fst (Full.generate_training_data st)) /\
  Forall (example_within 51 15) (fst (Small.generate_simple_training_data st)) /\
  Forall (example_within 22 15) (fst (Tiny.generate_tiny_training_data st)).
Proof.
  split; [apply full_generate_within|].
  split; [apply small_generate_within | apply tiny_generate_within].
Qed.

(* ===================================================================== *)
(** * Further properties of the dataset builder *)
(* ===================================================================== *)

Section Rows.

Variable max_code : Z.
Hypothesis seven_bits_fit : 127 <= max_code.

Variable builder : Rand (option (ndarray * ndarray)).
Variable generator : Rand (list example).
Variable st : random_state.
Variables n_text n_label : nat.

Hypothesis built :
  builds_dataset builder generator (encode max_code) (encode max_code) st.
Hypothesis short :
  Forall (example_within n_text n_label) (fst (generator st)).
Hypothesis text_fits : (n_text <= 200)%nat.
Hypothesis label_fits : (n_label < 50)%nat.
Hypothesis first_lines :
  Forall label_is_first_line (fst (generator st)).

Lemma encode_plain text n max_length :
  plain_within n text -> Z.of_nat n <= max_length ->
  encode max_code text max_length =
  map ord text ++ repeat 0 (Z.to_nat max_length - length text).
Proof.
  intros [Hrep Hlen] Hfit.
  rewrite encode_representable.
  - f_equal. f_equal. unfold len. lia.
  - revert Hrep. apply Forall_impl. intros c Hc. lia.
  - unfold len. lia.
Qed.

Lemma rows_raw : rows_are_raw_codes builder generator st.
Proof.
  destruct built as (X & y & Hsome & _ & _ & _ & _ & _ & _ & Hrows).
  exists X, y. split; [assumption|].
  intros i ex Hex. destruct (Hrows i ex Hex) as [HX Hy].
  rewrite Forall_forall in short.
  destruct (short ex (nth_error_In _ _ Hex)) as [Htext Hlabel].
  rewrite HX, Hy.
  rewrite (encode_plain (fst ex) n_text 200), (encode_plain (snd ex) n_label 50)
    by (assumption || lia).
  split; reflexivity.
Qed.

Lemma rows_open_with_label : label_opens_row builder generator st.
Proof.
  destruct rows_raw as (X & y & Hsome & Hrows).
  exists X, y. split; [assumption|].
  intros i ex Hex. destruct (Hrows i ex Hex) as [HX Hy].
  rewrite Forall_forall in short, first_lines.
  destruct (short ex (nth_error_In _ _ Hex)) as [_ [_ Hlen]].
  destruct (first_lines ex (nth_error_In _ _ Hex)) as [[rest Hrest] _].
  eexists. eexists. split; [exact HX|]. split; [exact Hy|].
  rewrite Hrest, !map_app, <- !app_assoc.
  rewrite <- (length_map ord (snd ex)).
  repeat split.
  - rewrite firstn_app, Nat.sub_diag, firstn_all. simpl. apply app_nil_r.
  - rewrite firstn_app, Nat.sub_diag, firstn_all. simpl. apply app_nil_r.
  - rewrite nth_error_app2, Nat.sub_diag by lia. reflexivity.
  - rewrite nth_error_app2, Nat.sub_diag by lia.
    rewrite length_map.
    destruct (50 - length (snd ex))%nat eqn:Hpad; [lia | reflexivity].
Qed.

End Rows.

Lemma full_first_lines st :
  Forall label_is_first_line (fst (Full.generate_training_data st)).
Proof.
  destruct (full_generate st) as [made [Hgen [_ Hall]]].
  rewrite Hgen. clear Hgen. apply Forall_app. split.
  - apply full_hand_written_first_line.
  - revert Hall. apply Forall_impl. intros ex.
    apply synthetic_first_line;
      [apply full_names_tokens | apply full_surnames_tokens].
Qed.

Lemma small_first_lines st :
  Forall label_is_first_line (fst (Small.generate_simple_training_data st)).
Proof.
  destruct (small_generate st) as [made [Hgen [_ Hall]]].
  rewrite Hgen. clear Hgen. apply Forall_app. split.
  - apply small_hand_written_first_line.
  - revert Hall. apply Forall_impl. intros ex.
    apply synthetic_first_line;
      [apply small_names_tokens | apply small_surnames_tokens].
Qed.

Lemma tiny_first_lines st :
  Forall label_is_first_line (fst (Tiny.generate_tiny_training_data st)).
Proof.
  destruct (tiny_generate st) as [made [Hgen [_ Hall]]].
  rewrite Hgen. clear Hgen. apply Forall_app. split.
  - apply tiny_hand_written_first_line.
  - revert Hall. apply Forall_impl. intros ex.
    apply synthetic_first_line;
      [apply tiny_names_tokens | apply tiny_surnames_tokens].
Qed.

Lemma generated_count st :
  length (fst (Full.generate_training_data st)) = 60%nat /\
  length (fst (Small.generate_simple_training_data st)) = 30%nat /\
  length (fst (Tiny.generate_tiny_training_data st)) = 15%nat.
Proof.
  destruct (full_generate st) as [mf [Hf [Lf _]]].
  destruct (small_generate st) as [ms [Hs [Ls _]]].
  destruct (tiny_generate st) as [mt [Ht [Lt _]]].
  rewrite Hf, Hs, Ht, !length_app, Lf, Ls, Lt. clear.
  repeat split.
Qed.

(** X14: Whatever the random source, the arrays [create_training_data] hands to
    the trainer have shapes (60, 200) and (60, 50) in the full script,
    (30, 200) and (30, 50) in the small one, (15, 200) and (15, 50) in the
    tiny one. *)
Theorem dataset_shapes (st : random_state) :
  dataset_shape Full.create_training_data 60 st /\
  dataset_shape Small.create_training_data 30 st /\
  dataset_shape Tiny.create_training_data 15 st.
Proof.
  destruct (generated_count st) as [Cf [Cs Ct]].
  destruct (full_builds st) as (Xf & yf & Hf & HXf & Hyf & _).
  destruct (small_builds st) as (Xs & ys & Hs & HXs & Hys & _).
  destruct (tiny_builds st) as (Xt & yt & Ht & HXt & Hyt & _).
  cbv zeta in *. rewrite Cf in HXf, Hyf. rewrite Cs in HXs, Hys.
  rewrite Ct in HXt, Hyt.
  split; [exists Xf, yf | split; [exists Xs, ys | exists Xt, yt]];
    repeat split; assumption.
Qed.

(** X15: Whatever the random source, nothing is cut and nothing is capped when
    the examples are encoded: each row of [X] is the code points of the
    whole text followed by zeros up to 200, each row of [y] the code points
    of the whole label followed by zeros up to 50. *)
Theorem dataset_rows_are_raw_codes (st : random_state) :
  rows_are_raw_codes Full.create_training_data
    Full.generate_training_data st /\
  rows_are_raw_codes Small.create_training_data
    Small.generate_simple_training_data st /\
  rows_are_raw_codes Tiny.create_training_data
    Tiny.generate_tiny_training_data st.
Proof.
  repeat match goal with |- _ /\ _ => split end.
  - apply (rows_raw 29999 ltac:(lia) _ _ st 63 15 (full_builds st)
             (full_generate_within st)); lia.
  - apply (rows_raw 255 ltac:(lia) _ _ st 51 15 (small_builds st)
             (small_generate_within st)); lia.
  - apply (rows_raw 127 ltac:(lia) _ _ st 22 15 (tiny_builds st)
             (tiny_generate_within st)); lia.
Qed.

(** X16: Whatever the random source, row [i] of [X] and row [i] of [y] begin
    with the same codes, those of the label of example [i]; at the next
    position the row of [X] holds 10, the newline that ends the label in
    the text, and the row of [y] holds 0, its first padding token. *)
Theorem dataset_label_opens_text_row (st : random_state) :
  label_opens_row Full.create_training_data
    Full.generate_training_data st /\
  label_opens_row Small.create_training_data
    Small.generate_simple_training_data st /\
  label_opens_row Tiny.create_training_data
    Tiny.generate_tiny_training_data st.
Proof.
  repeat match goal with |- _ /\ _ => split end.
  - apply (rows_open_with_label 29999 ltac:(lia) _ _ st 63 15 (full_builds st)
             (full_generate_within st)); try lia. apply full_first_lines.
  - apply (rows_open_with_label 255 ltac:(lia) _ _ st 51 15 (small_builds st)
             (small_generate_within st)); try lia. apply small_first_lines.
  - apply (rows_open_with_label 127 ltac:(lia) _ _ st 22 15 (tiny_builds st)
             (tiny_generate_within st)); try lia. apply tiny_first_lines.
Qed.

(* ===================================================================== *)
(** * Further properties of the output stage *)
(* ===================================================================== *)

Section SharedUnit.

Local Open Scope R_scope.




End SharedUnit.

